(** * Device Shadow sample (samples/shadow.py): a shallow embedding

    The sample keeps one named shadow property in sync between a device and
    the AWS IoT Device Shadow service.  Its module-level globals become a
    record, its callbacks become computations in a small monad that threads
    the globals, may raise a Python exception, and emits the externally
    visible actions (console lines, lock operations, stores to
    [shadow_value], calls on the MQTT connection and the shadow client) in
    program order. *)

From Stdlib Require Import ZArith String List Bool Lia.
From stdpp Require Import gmap strings.
Import ListNotations.

Local Open Scope string_scope.
Local Open Scope list_scope.

(** ** Python values carried by a shadow document

    A shadow property is a JSON scalar: null, a boolean, an integer or a
    string (the sample's own values are strings; numbers with a fraction and
    nested documents are left out).  [truthy] is Python's truth test
    ([if value:]), [py_eq] is Python's [==] (where [True == 1] and
    [False == 0]). *)

Inductive pyval : Type :=
| PNone
| PBool (b : bool)
| PInt (z : Z)
| PStr (s : string).

Definition is_none (v : pyval) : bool :=
  match v with PNone => true | _ => false end.

Definition truthy (v : pyval) : bool :=
  match v with
  | PNone => false
  | PBool b => b
  | PInt z => negb (z =? 0)%Z
  | PStr s => negb (String.eqb s EmptyString)
  end.

Definition int_of_bool (b : bool) : Z := if b then 1%Z else 0%Z.

Definition py_eq (a b : pyval) : bool :=
  match a, b with
  | PNone, PNone => true
  | PBool x, PBool y => Bool.eqb x y
  | PInt x, PInt y => (x =? y)%Z
  | PBool x, PInt y => (int_of_bool x =? y)%Z
  | PInt x, PBool y => (x =? int_of_bool y)%Z
  | PStr x, PStr y => String.eqb x y
  | _, _ => false
  end.

(** A JSON object: a Python dict with string keys. *)
Abbreviation dict := (gmap string pyval).

(** [d.get(k)]: the value, or [None] when the key is absent. *)
Definition dict_get (d : dict) (k : string) : pyval :=
  match d !! k with Some v => v | None => PNone end.

(** [k in d] *)
Definition dict_contains (d : dict) (k : string) : bool :=
  match d !! k with Some _ => true | None => false end.

(** Truth test of an attribute that holds [None] or a dict: [None] and the
    empty dict are false. *)
Definition opt_dict_truthy (od : option dict) : bool :=
  match od with
  | None => false
  | Some d => negb (bool_decide (d = ∅))
  end.

(** ** The iotshadow message classes, as far as the sample reads them *)

Record ShadowState : Type := mkShadowState {
  ss_reported : option dict;
  ss_desired : option dict
}.

Record ShadowStateWithDelta : Type := mkShadowStateWithDelta {
  sd_delta : option dict;
  sd_reported : option dict;
  sd_desired : option dict
}.

Record GetShadowResponse : Type := mkGetShadowResponse {
  gsr_state : option ShadowStateWithDelta
}.

Record ShadowDeltaEvent : Type := mkShadowDeltaEvent {
  sde_state : option dict
}.

Record ErrorResponse : Type := mkErrorResponse {
  err_code : Z;
  err_message : string
}.

Record UpdateShadowResponse : Type := mkUpdateShadowResponse {
  usr_state : option ShadowState
}.

Record UpdateShadowRequest : Type := mkUpdateShadowRequest {
  req_thing_name : string;
  req_state : ShadowState
}.

(** ** Exceptions, console lines and visible actions *)

Inductive exn : Type :=
| KeyError (k : string)
| TypeError (what : string)
| RuntimeError (msg : string)
| ConnectionFailed (code : Z)   (* RuntimeError("Connection failed with code: ...") *)
| InvalidStateError             (* a future is completed a second time *)
| AttributeError (attr : string)
| OtherError (msg : string).

(** The argument of [exit(msg)], one constructor per call site. *)
Inductive exit_msg : Type :=
| MsgErrorGettingShadow (e : exn)
| MsgGetRejected (code : Z) (message : string)
| MsgErrorProcessingDelta (e : exn)
| MsgFailedToPublish (e : exn)
| MsgUpdateRejected (code : Z) (message : string)
| MsgErrorIssuingUpdate (e : exn)
| MsgUserHasQuit
| MsgInputException (e : exn)
| MsgStartup (e : exn).

(** The [print] calls of the sample, one constructor per format string. *)
Inductive log_line : Type :=
| LExitingSample (m : exit_msg)
| LDisconnecting
| LConnectCompleted (code : Z)
| LDisconnected (code : Z)
| LFinishedGetting
| LIgnoringInitialQuery
| LShadowContainsDelta (v : pyval)
| LShadowContainsReported (v : pyval)
| LShadowLacksProperty (prop : string)
| LNoShadowDocument
| LReceivedDelta
| LDeltaDeleted (prop : string)
| LDeltaDesired (v : pyval)
| LDeltaNoChange (prop : string)
| LUpdatePublished
| LFinishedUpdating (v : pyval)
| LEnterDesiredValue
| LLocalValueAlready (v : pyval)
| LChangedLocalValue (v : pyval)
| LUpdatingReported (v : pyval)
| LSubscribingDelta
| LSubscribingUpdate
| LSubscribingGet
| LRequestingState
| LLaunchingInputThread.

(** Topics the startup sequence subscribes to, and the futures it waits on. *)
Inductive topic : Type :=
| TDelta
| TUpdateAccepted
| TUpdateRejected
| TGetAccepted
| TGetRejected.

Inductive awaited : Type :=
| FSubscribed (t : topic)
| FPublishGet.

Inductive effect : Type :=
| EPrint (l : log_line)
| EAcquire                              (* shadow_value_lock taken *)
| ERelease                              (* shadow_value_lock released *)
| EStore (v : pyval)                    (* shadow_value = v *)
| EPublishUpdate (r : UpdateShadowRequest)   (* shadow_client.publish_update *)
| EAddDoneCallback                      (* future.add_done_callback *)
| EDisconnect                           (* mqtt_connection.disconnect() *)
| ESubscribe (t : topic)                (* shadow_client.subscribe_to_... *)
| EPublishGet                           (* shadow_client.publish_get *)
| EAwaited (f : awaited)                (* future.result() returned *)
| EStartInputThread.                    (* user_input_thread.start() *)

(** ** Module-level globals *)

Inductive future_state : Type :=
| FutPending
| FutResult
| FutException (e : exn).

Record globals : Type := mkGlobals {
  connected_future : future_state;
  disconnect_called : bool;
  is_sample_done : bool;
  thing_name : string;
  shadow_property : string;
  shadow_value : pyval
}.

Definition SHADOW_VALUE_DEFAULT : pyval := PStr "off".

Definition set_shadow_value (v : pyval) (g : globals) : globals :=
  {| connected_future := connected_future g;
     disconnect_called := disconnect_called g;
     is_sample_done := is_sample_done g;
     thing_name := thing_name g;
     shadow_property := shadow_property g;
     shadow_value := v |}.

Definition set_disconnect_called (b : bool) (g : globals) : globals :=
  {| connected_future := connected_future g;
     disconnect_called := b;
     is_sample_done := is_sample_done g;
     thing_name := thing_name g;
     shadow_property := shadow_property g;
     shadow_value := shadow_value g |}.

Definition set_is_sample_done (b : bool) (g : globals) : globals :=
  {| connected_future := connected_future g;
     disconnect_called := disconnect_called g;
     is_sample_done := b;
     thing_name := thing_name g;
     shadow_property := shadow_property g;
     shadow_value := shadow_value g |}.

Definition set_connected_future (f : future_state) (g : globals) : globals :=
  {| connected_future := f;
     disconnect_called := disconnect_called g;
     is_sample_done := is_sample_done g;
     thing_name := thing_name g;
     shadow_property := shadow_property g;
     shadow_value := shadow_value g |}.

(** ** The monad of the callbacks *)

Inductive outcome (A : Type) : Type :=
| Returned (a : A)
| Raised (e : exn).
Arguments Returned {A} a.
Arguments Raised {A} e.

Record run_result (A : Type) : Type := mkRun {
  res : outcome A;
  post : globals;
  emitted : list effect
}.
Arguments mkRun {A} res post emitted.
Arguments res {A} r.
Arguments post {A} r.
Arguments emitted {A} r.

Definition M (A : Type) : Type := globals -> run_result A.

Definition ret {A} (a : A) : M A := fun g => mkRun (Returned a) g [].

Definition bind {A B} (m : M A) (f : A -> M B) : M B :=
  fun g =>
    match m g with
    | mkRun (Returned a) g1 out1 =>
        match f a g1 with
        | mkRun r g2 out2 => mkRun r g2 (out1 ++ out2)
        end
    | mkRun (Raised e) g1 out1 => mkRun (Raised e) g1 out1
    end.

Definition raise {A} (e : exn) : M A := fun g => mkRun (Raised e) g [].

(** [try: body  except Exception as e: handler(e)] *)
Definition try_except {A} (body : M A) (handler : exn -> M A) : M A :=
  fun g =>
    match body g with
    | mkRun (Returned a) g1 out1 => mkRun (Returned a) g1 out1
    | mkRun (Raised e) g1 out1 =>
        match handler e g1 with
        | mkRun r g2 out2 => mkRun r g2 (out1 ++ out2)
        end
    end.

Definition emit (e : effect) : M unit := fun g => mkRun (Returned tt) g [e].
Definition read {A} (f : globals -> A) : M A := fun g => mkRun (Returned (f g)) g [].
Definition modify (f : globals -> globals) : M unit :=
  fun g => mkRun (Returned tt) (f g) [].

Notation "x <- c1 ;; c2" := (bind c1 (fun x => c2))
  (at level 20, c1 at level 99, c2 at level 200, only parsing).
Notation "c1 ;; c2" := (bind c1 (fun _ => c2))
  (at level 100, c2 at level 200, only parsing).

Definition print (l : log_line) : M unit := emit (EPrint l).

(** [with shadow_value_lock: body]; the lock is released however the body
    ends. *)
Definition with_lock {A} (body : M A) : M A :=
  emit EAcquire ;;
  a <- try_except body (fun e => emit ERelease ;; raise e) ;;
  emit ERelease ;;
  ret a.

(** [shadow_value = v] *)
Definition store_shadow_value (v : pyval) : M unit :=
  modify (set_shadow_value v) ;; emit (EStore v).

(** [d[k]]: [KeyError] when the key is absent, [TypeError] when [d] is
    [None]. *)
Definition subscript (od : option dict) (k : string) : M pyval :=
  match od with
  | None => raise (TypeError "'NoneType' object is not subscriptable")
  | Some d =>
      match d !! k with
      | Some v => ret v
      | None => raise (KeyError k)
      end
  end.

(** ** The sample's functions

    What a call into the client library does is not decided by the sample:
    every function that calls [publish_update] takes the result of that call
    ([CallReturns]: a future comes back; [CallRaises e]: the call raises) as
    an argument.  A function makes at most one such call. *)

Inductive call_result : Type :=
| CallReturns
| CallRaises (e : exn).

(** [exit(msg)], lines 69-74. *)
Definition exit (msg : exit_msg) : M unit :=
  print (LExitingSample msg) ;;
  print LDisconnecting ;;
  modify (set_disconnect_called true) ;;
  emit EDisconnect.

(** [on_connected], lines 76-82.  [connected_future] can be completed
    once: a second [set_result] or [set_exception] raises
    [InvalidStateError], which nothing in the sample catches. *)
Definition on_connected (return_code : Z) (session_present : bool) : M unit :=
  print (LConnectCompleted return_code) ;;
  fut <- read connected_future ;;
  match fut with
  | FutPending =>
      if (return_code =? 0)%Z then modify (set_connected_future FutResult)
      else modify (set_connected_future
                     (FutException (ConnectionFailed return_code)))
  | _ => raise InvalidStateError
  end.

(** [on_disconnected], lines 84-94; the result tells the connection whether
    to reconnect. *)
Definition on_disconnected (return_code : Z) : M bool :=
  print (LDisconnected return_code) ;;
  called <- read disconnect_called ;;
  if called then modify (set_is_sample_done true) ;; ret false
  else ret true.

(** The result of the comparison under the lock in [change_shadow_value]. *)
Inductive cas_report : Type :=
| Unchanged
| Changed.

(** [change_shadow_value], lines 182-189: the block under
    [shadow_value_lock]. *)
Definition compare_and_set (value : pyval) : M cas_report :=
  with_lock
    (current <- read shadow_value ;;
     if py_eq current value then
       print (LLocalValueAlready value) ;;
       print LEnterDesiredValue ;;
       ret Unchanged
     else
       print (LChangedLocalValue value) ;;
       store_shadow_value value ;;
       ret Changed).

(** [shadow_client.publish_update(request)] *)
Definition publish_update (po : call_result) (request : UpdateShadowRequest)
  : M unit :=
  emit (EPublishUpdate request) ;;
  match po with
  | CallReturns => ret tt
  | CallRaises e => raise e
  end.

(** The request built at lines 193-199. *)
Definition update_request (thing prop : string) (value : pyval)
  : UpdateShadowRequest :=
  {| req_thing_name := thing;
     req_state := {| ss_reported := Some {[ prop := value ]};
                     ss_desired := Some {[ prop := value ]} |} |}.

(** [change_shadow_value], lines 191-203: what follows the locked block. *)
Definition publish_reported (po : call_result) (value : pyval) : M unit :=
  print (LUpdatingReported value) ;;
  try_except
    (thing <- read thing_name ;;
     prop <- read shadow_property ;;
     publish_update po (update_request thing prop value) ;;
     emit EAddDoneCallback)
    (fun e => exit (MsgErrorIssuingUpdate e)).

(** [change_shadow_value], lines 180-203. *)
Definition change_shadow_value (po : call_result) (value : pyval) : M unit :=
  r <- compare_and_set value ;;
  match r with
  | Unchanged => ret tt
  | Changed => publish_reported po value
  end.

(** [set_local_value_due_to_initial_query], lines 174-178. *)
Definition set_local_value_due_to_initial_query (reported_value : pyval)
  : M unit :=
  with_lock (store_shadow_value reported_value) ;;
  print LEnterDesiredValue.

(** [on_get_accepted], lines 96-126. *)
Definition on_get_accepted (po : call_result) (response : GetShadowResponse)
  : M unit :=
  try_except
    (print LFinishedGetting ;;
     ignore <- with_lock
                 (current <- read shadow_value ;;
                  if negb (is_none current) then
                    print LIgnoringInitialQuery ;; ret true
                  else ret false) ;;
     if ignore : bool then ret tt
     else
       prop <- read shadow_property ;;
       let use_default :=
         print (LShadowLacksProperty prop) ;;
         change_shadow_value po SHADOW_VALUE_DEFAULT in
       let try_reported (st : ShadowStateWithDelta) :=
         if opt_dict_truthy (sd_reported st) then
           let value := dict_get (default ∅ (sd_reported st)) prop in
           if truthy value then
             print (LShadowContainsReported value) ;;
             v <- subscript (sd_reported st) prop ;;
             set_local_value_due_to_initial_query v
           else use_default
         else use_default in
       match gsr_state response with
       | Some st =>
           if opt_dict_truthy (sd_delta st) then
             let value := dict_get (default ∅ (sd_delta st)) prop in
             if truthy value then
               print (LShadowContainsDelta value) ;;
               change_shadow_value po value
             else try_reported st
           else try_reported st
       | None => use_default
       end)
    (fun e => exit (MsgErrorGettingShadow e)).

(** [on_get_rejected], lines 128-135. *)
Definition on_get_rejected (po : call_result) (error : ErrorResponse)
  : M unit :=
  if (err_code error =? 404)%Z then
    print LNoShadowDocument ;;
    change_shadow_value po SHADOW_VALUE_DEFAULT
  else
    exit (MsgGetRejected (err_code error) (err_message error)).

(** [on_delta_event], lines 137-154. *)
Definition on_delta_event (po : call_result) (delta : ShadowDeltaEvent)
  : M unit :=
  try_except
    (print LReceivedDelta ;;
     prop <- read shadow_property ;;
     if opt_dict_truthy (sde_state delta)
        && dict_contains (default ∅ (sde_state delta)) prop then
       value <- subscript (sde_state delta) prop ;;
       if is_none value then
         print (LDeltaDeleted prop) ;;
         change_shadow_value po SHADOW_VALUE_DEFAULT
       else
         print (LDeltaDesired value) ;;
         change_shadow_value po value
     else
       print (LDeltaNoChange prop))
    (fun e => exit (MsgErrorProcessingDelta e)).

(** [on_publish_update], lines 156-162; [fr] is what [future.result()]
    does. *)
Definition on_publish_update (fr : call_result) : M unit :=
  try_except
    (match fr with
     | CallReturns => ret tt
     | CallRaises e => raise e
     end ;;
     print LUpdatePublished)
    (fun e => exit (MsgFailedToPublish e)).

(** [on_update_accepted], lines 164-167.  Nothing catches an exception
    raised while the reported value is looked up. *)
Definition on_update_accepted (response : UpdateShadowResponse) : M unit :=
  prop <- read shadow_property ;;
  v <- match usr_state response with
       | None => raise (AttributeError "reported")
       | Some st => subscript (ss_reported st) prop
       end ;;
  print (LFinishedUpdating v) ;;
  print LEnterDesiredValue.

(** [on_update_rejected], lines 169-172. *)
Definition on_update_rejected (error : ErrorResponse) : M unit :=
  exit (MsgUpdateRejected (err_code error) (err_message error)).

(** One turn of the loop of [user_input_thread_fn], lines 205-224.  The
    result is [true] when the loop goes on and [false] after a [break]. *)
Inductive input_result : Type :=
| InputLine (s : string)
| InputRaises (e : exn).

Definition user_input_iteration (po : call_result) (inp : input_result)
  : M bool :=
  try_except
    (new_value <- match inp with
                  | InputLine s => ret s
                  | InputRaises e => raise e
                  end ;;
     if String.eqb new_value "exit" || String.eqb new_value "quit" then
       exit MsgUserHasQuit ;; ret false
     else
       change_shadow_value po (PStr new_value) ;; ret true)
    (fun e => exit (MsgInputException e) ;; ret false).

(** ** Sequences of operations on the globals *)

Inductive event : Type :=
| EvConnected (return_code : Z) (session_present : bool)
| EvDisconnected (return_code : Z)
| EvGetAccepted (po : call_result) (response : GetShadowResponse)
| EvGetRejected (po : call_result) (error : ErrorResponse)
| EvDelta (po : call_result) (delta : ShadowDeltaEvent)
| EvPublishDone (fr : call_result)
| EvUpdateAccepted (response : UpdateShadowResponse)
| EvUpdateRejected (error : ErrorResponse)
| EvUserInput (po : call_result) (inp : input_result)
| EvExit (msg : exit_msg).

Definition handle (ev : event) : M unit :=
  match ev with
  | EvConnected c s => on_connected c s
  | EvDisconnected c => on_disconnected c ;; ret tt
  | EvGetAccepted po r => on_get_accepted po r
  | EvGetRejected po e => on_get_rejected po e
  | EvDelta po d => on_delta_event po d
  | EvPublishDone fr => on_publish_update fr
  | EvUpdateAccepted r => on_update_accepted r
  | EvUpdateRejected e => on_update_rejected e
  | EvUserInput po inp => user_input_iteration po inp ;; ret tt
  | EvExit msg => exit msg
  end.

(** The globals and the actions after a sequence of operations; an exception
    that leaves a callback is dropped by its caller. *)
Fixpoint run_events (evs : list event) (g : globals) : globals * list effect :=
  match evs with
  | [] => (g, [])
  | ev :: rest =>
      let r := handle ev g in
      let '(g', out) := run_events rest (post r) in
      (g', emitted r ++ out)
  end.

Definition initial_globals (thing prop : string) : globals :=
  {| connected_future := FutPending;
     disconnect_called := false;
     is_sample_done := false;
     thing_name := thing;
     shadow_property := prop;
     shadow_value := PNone |}.

Definition delta_of (prop : string) (v : pyval) : ShadowDeltaEvent :=
  {| sde_state := Some {[ prop := v ]} |}.

(** ** The startup sequence and the threads around it

    Lines 267-327.  The body of the [try] is straight-line code: each
    statement is one instruction of the main thread.  A call into the client
    or a wait on a future either returns or raises; a raise leaves the [try]
    for [exit(repr(e))], after which the main thread waits on
    [is_sample_done] like after a normal end of the body. *)

Inductive instr : Type :=
| IPrint (l : log_line)
| ISubscribe (t : topic)
| IAwait (f : awaited)
| IPublishGet
| IStartInputThread.

Definition startup_body : list instr :=
  [ IPrint LSubscribingDelta;
    ISubscribe TDelta;
    IAwait (FSubscribed TDelta);
    IPrint LSubscribingUpdate;
    ISubscribe TUpdateAccepted;
    ISubscribe TUpdateRejected;
    IAwait (FSubscribed TUpdateAccepted);
    IAwait (FSubscribed TUpdateRejected);
    IPrint LSubscribingGet;
    ISubscribe TGetAccepted;
    ISubscribe TGetRejected;
    IAwait (FSubscribed TGetAccepted);
    IAwait (FSubscribed TGetRejected);
    IPrint LRequestingState;
    IPublishGet;
    IAwait FPublishGet;
    IPrint LLaunchingInputThread;
    IStartInputThread ].

Inductive main_state : Type :=
| MainTry (rest : list instr)      (* inside the try, [rest] still to run *)
| MainWaitDone                     (* is_sample_done.wait() *)
| MainExited.                      (* the process has ended *)

(** The action an instruction performs before its outcome is known: the
    call is made even when it raises; a wait that raises has not returned. *)
Definition instr_effects (i : instr) (r : call_result) : list effect :=
  match i, r with
  | IPrint l, _ => [EPrint l]
  | ISubscribe t, _ => [ESubscribe t]
  | IAwait f, CallReturns => [EAwaited f]
  | IAwait f, CallRaises _ => []
  | IPublishGet, _ => [EPublishGet]
  | IStartInputThread, _ => [EStartInputThread]
  end.

(** [print] and [Thread.start] do not raise. *)
Definition instr_may_raise (i : instr) : bool :=
  match i with
  | IPrint _ | IStartInputThread => false
  | _ => true
  end.

Record sys : Type := mkSys {
  sys_globals : globals;
  sys_main : main_state;
  sys_input_running : bool;          (* the input thread is in its loop *)
  sys_pending_done : nat;            (* done-callbacks registered, not yet run *)
  sys_out : list effect              (* every action so far, in order *)
}.

Definition topic_eqb (a b : topic) : bool :=
  match a, b with
  | TDelta, TDelta | TUpdateAccepted, TUpdateAccepted
  | TUpdateRejected, TUpdateRejected | TGetAccepted, TGetAccepted
  | TGetRejected, TGetRejected => true
  | _, _ => false
  end.

Definition awaited_eqb (a b : awaited) : bool :=
  match a, b with
  | FSubscribed x, FSubscribed y => topic_eqb x y
  | FPublishGet, FPublishGet => true
  | _, _ => false
  end.

Definition is_subscribe (t : topic) (e : effect) : bool :=
  match e with ESubscribe t' => topic_eqb t t' | _ => false end.
Definition is_awaited (f : awaited) (e : effect) : bool :=
  match e with EAwaited f' => awaited_eqb f f' | _ => false end.
Definition is_publish_get (e : effect) : bool :=
  match e with EPublishGet => true | _ => false end.
Definition is_publish_update (e : effect) : bool :=
  match e with EPublishUpdate _ => true | _ => false end.
Definition is_add_done_callback (e : effect) : bool :=
  match e with EAddDoneCallback => true | _ => false end.
Definition is_disconnect (e : effect) : bool :=
  match e with EDisconnect => true | _ => false end.

(** The subscribe call for [t] has been made. *)
Definition subscribed (t : topic) (out : list effect) : bool :=
  existsb (is_subscribe t) out.
(** The main thread has seen the future [f] complete. *)
Definition completed (f : awaited) (out : list effect) : bool :=
  existsb (is_awaited f) out.

(** When the client library may run a callback, and when the input thread
    may take a turn.  Callbacks run on the client's own thread, whatever the
    main thread is doing (the sample guards [shadow_value] with a lock for
    that reason, and [on_get_accepted] expects that a delta event may have
    come first).  A callback needs its subscription to have been requested;
    a response to the get or to an update needs that request to have been
    published as well.  [on_connected] runs before line 267 and [exit] is
    only called by the sample itself, so neither is scheduled here. *)
Definition enabled (ev : event) (s : sys) : bool :=
  match ev with
  | EvConnected _ _ => false
  | EvExit _ => false
  | EvDisconnected _ => true
  | EvDelta _ _ => subscribed TDelta (sys_out s)
  | EvGetAccepted _ _ =>
      subscribed TGetAccepted (sys_out s) && existsb is_publish_get (sys_out s)
  | EvGetRejected _ _ =>
      subscribed TGetRejected (sys_out s) && existsb is_publish_get (sys_out s)
  | EvUpdateAccepted _ =>
      subscribed TUpdateAccepted (sys_out s)
      && existsb is_publish_update (sys_out s)
  | EvUpdateRejected _ =>
      subscribed TUpdateRejected (sys_out s)
      && existsb is_publish_update (sys_out s)
  | EvPublishDone _ => negb (sys_pending_done s =? 0)%nat
  | EvUserInput _ _ => sys_input_running s
  end.

Definition count_registered (out : list effect) : nat :=
  length (filter is_add_done_callback out).

Inductive sched : Type :=
| SMain (r : call_result)       (* the main thread runs its next statement *)
| SCallback (ev : event).       (* a callback, or a turn of the input thread *)

Definition after_try (rest : list instr) : main_state :=
  match rest with
  | [] => MainWaitDone
  | _ => MainTry rest
  end.

Definition starts_input_thread (i : instr) : bool :=
  match i with IStartInputThread => true | _ => false end.

Definition main_step (r : call_result) (s : sys) : option sys :=
  match sys_main s with
  | MainTry [] => Some (mkSys (sys_globals s) MainWaitDone
                          (sys_input_running s) (sys_pending_done s) (sys_out s))
  | MainTry (i :: rest) =>
      match r with
      | CallReturns =>
          Some (mkSys (sys_globals s) (after_try rest)
                  (sys_input_running s || starts_input_thread i)
                  (sys_pending_done s)
                  (sys_out s ++ instr_effects i r))
      | CallRaises e =>
          if instr_may_raise i then
            let x := exit (MsgStartup e) (sys_globals s) in
            Some (mkSys (post x) MainWaitDone
                    (sys_input_running s) (sys_pending_done s)
                    (sys_out s ++ instr_effects i r ++ emitted x))
          else None
      end
  | MainWaitDone =>
      if is_sample_done (sys_globals s) then
        Some (mkSys (sys_globals s) MainExited false
                (sys_pending_done s) (sys_out s))
      else None
  | MainExited => None
  end.

(** A callback, or a turn of the input loop, is scheduled as one step: the
    executions below interleave whole callbacks with the statements of the
    main thread, not the statements of two callbacks with each other. *)
Definition callback_step (ev : event) (s : sys) : option sys :=
  match sys_main s with
  | MainExited => None
  | _ =>
      if enabled ev s then
        let r := handle ev (sys_globals s) in
        let running :=
          match ev with
          | EvUserInput po inp =>
              match res (user_input_iteration po inp (sys_globals s)) with
              | Returned again => again
              | Raised _ => false
              end
          | _ => sys_input_running s
          end in
        let pending :=
          match ev with
          | EvPublishDone _ => Nat.pred (sys_pending_done s)
          | _ => sys_pending_done s
          end in
        Some (mkSys (post r) (sys_main s) running
                (pending + count_registered (emitted r))
                (sys_out s ++ emitted r))
      else None
  end.

Definition sys_step (c : sched) (s : sys) : option sys :=
  match c with
  | SMain r => main_step r s
  | SCallback ev => callback_step ev s
  end.

(** An execution is a schedule each of whose steps is possible. *)
Fixpoint sys_run (cs : list sched) (s : sys) : option sys :=
  match cs with
  | [] => Some s
  | c :: rest =>
      match sys_step c s with
      | Some s' => sys_run rest s'
      | None => None
      end
  end.

(** The state at line 267: connected, nothing subscribed, no value yet. *)
Definition sys_init (thing prop : string) : sys :=
  {| sys_globals := set_connected_future FutResult (initial_globals thing prop);
     sys_main := MainTry startup_body;
     sys_input_running := false;
     sys_pending_done := 0;
     sys_out := [] |}.

(** The startup sequence alone: the main thread runs to the end of the
    [try] with every call returning, and nothing else is scheduled. *)
Definition startup_alone : list sched :=
  repeat (SMain CallReturns) (length startup_body).

(** ** Closed forms used in the statements *)

(** The actions of the change path, by case. *)
Definition unchanged_lines (v : pyval) : list effect :=
  [EAcquire; EPrint (LLocalValueAlready v); EPrint LEnterDesiredValue; ERelease].

Definition changed_lines (v : pyval) : list effect :=
  [EAcquire; EPrint (LChangedLocalValue v); EStore v; ERelease].

Definition exit_lines (m : exit_msg) : list effect :=
  [EPrint (LExitingSample m); EPrint LDisconnecting; EDisconnect].

Definition publish_lines (po : call_result) (g : globals) (v : pyval)
  : list effect :=
  EPrint (LUpdatingReported v)
  :: EPublishUpdate (update_request (thing_name g) (shadow_property g) v)
  :: match po with
     | CallReturns => [EAddDoneCallback]
     | CallRaises e => exit_lines (MsgErrorIssuingUpdate e)
     end.

Definition after_publish (po : call_result) (g : globals) : globals :=
  match po with
  | CallReturns => g
  | CallRaises _ => set_disconnect_called true g
  end.

(** The value a section of the snapshot offers for the property: the
    section is a non-empty dict, it has the property, and the value passes
    Python's truth test. *)
Definition offered (section : option dict) (prop : string) : option pyval :=
  match section with
  | Some d =>
      match d !! prop with
      | Some v => if truthy v then Some v else None
      | None => None
      end
  | None => None
  end.

(** A run with some actions put in front. *)
Definition prepend {A} (pre : list effect) (r : run_result A) : run_result A :=
  mkRun (res r) (post r) (pre ++ emitted r).

Definition query_head : list effect :=
  [EPrint LFinishedGetting; EAcquire; ERelease].

Definition adopt_reported_lines (v : pyval) : list effect :=
  [EPrint (LShadowContainsReported v); EAcquire; EStore v; ERelease;
   EPrint LEnterDesiredValue].

(** The value a delta event gives for the property, when it mentions it
    ([None] of the option: not mentioned; [Some PNone]: deleted). *)
Definition mentioned (delta : ShadowDeltaEvent) (prop : string)
  : option pyval :=
  match sde_state delta with
  | Some d => d !! prop
  | None => None
  end.

(** The value the handler of a delta event takes up. *)
Definition adopted_from_delta (v : pyval) : pyval :=
  if is_none v then SHADOW_VALUE_DEFAULT else v.

(** The update requests among some actions. *)
Definition published (out : list effect) : list effect :=
  filter is_publish_update out.

Definition request_for (g : globals) (v : pyval) : effect :=
  EPublishUpdate (update_request (thing_name g) (shadow_property g) v).

(** The property is present in a section of the snapshot, whatever its
    value. *)
Definition carries (section : option dict) (prop : string) : option pyval :=
  match section with
  | Some d => d !! prop
  | None => None
  end.

(** A delta event that mentions the property always leads to a publish of
    the value taken up. *)
Definition delta_always_publishes
  (po : call_result) (delta : ShadowDeltaEvent) (g : globals) : Prop :=
  forall v, mentioned delta (shadow_property g) = Some v ->
    In (request_for g (adopted_from_delta v))
       (emitted (on_delta_event po delta g)).

(** A rejection with code 404 always takes up the default and publishes
    it. *)
Definition not_found_always_publishes
  (po : call_result) (error : ErrorResponse) (g : globals) : Prop :=
  err_code error = 404%Z ->
  shadow_value (post (on_get_rejected po error g)) = SHADOW_VALUE_DEFAULT
  /\ In (request_for g SHADOW_VALUE_DEFAULT)
        (emitted (on_get_rejected po error g)).

(** The number of disconnect requests among some actions. *)
Definition disconnect_requests (out : list effect) : nat :=
  length (filter is_disconnect out).

(** Calling [exit] once for each message of [msgs], in a row. *)
Definition exit_calls (msgs : list exit_msg) (g : globals)
  : globals * list effect :=
  run_events (map EvExit msgs) g.

(** Only the first call of the shutdown routine requests a disconnect. *)
Definition shutdown_idempotent (msgs : list exit_msg) (g : globals) : Prop :=
  disconnect_requests (snd (exit_calls msgs g)) <= 1.

(** What an initial query prints when the store already holds a value. *)
Definition ignored_lines : list effect :=
  [EPrint LFinishedGetting; EAcquire; EPrint LIgnoringInitialQuery; ERelease].

(** ** Sample inputs *)

(** A snapshot whose delta holds the property with the value red. *)
Definition red_delta_response : GetShadowResponse :=
  {| gsr_state := Some {| sd_delta := Some {[ "color" := PStr "red" ]};
                          sd_reported := None; sd_desired := None |} |}.

(** A snapshot whose delta holds the property with the empty string. *)
Definition empty_delta_response : GetShadowResponse :=
  {| gsr_state := Some {| sd_delta := Some {[ "color" := PStr EmptyString ]};
                          sd_reported := None; sd_desired := None |} |}.

(** The globals once the store holds [v]. *)
Definition globals_with (v : pyval) : globals :=
  set_shadow_value v (initial_globals "lamp" "color").

Definition not_found : ErrorResponse :=
  {| err_code := 404; err_message := "No shadow exists" |}.

(** Neither section of the snapshot offers the property. *)
Definition lacks_property (response : GetShadowResponse) (prop : string)
  : bool :=
  match gsr_state response with
  | None => true
  | Some st =>
      match offered (sd_delta st) prop, offered (sd_reported st) prop with
      | None, None => true
      | _, _ => false
      end
  end.

(** ** Order of subscriptions and publishes *)

Definition all_topics : list topic :=
  [TDelta; TUpdateAccepted; TUpdateRejected; TGetAccepted; TGetRejected].

(** The main thread has seen every subscription complete. *)
Definition all_subscriptions_completed (out : list effect) : bool :=
  forallb (fun t => completed (FSubscribed t) out) all_topics.

(** The actions a callback or the input thread can perform: everything but
    the calls of the startup sequence. *)
Definition callback_effect (e : effect) : bool :=
  match e with
  | EPrint _ | EAcquire | ERelease | EStore _ | EPublishUpdate _
  | EAddDoneCallback | EDisconnect => true
  | ESubscribe _ | EPublishGet | EAwaited _ | EStartInputThread => false
  end.

(** Every action of the computation [m], from any globals, satisfies [P]. *)
Definition emits_only (P : effect -> bool) {A} (m : M A) : Prop :=
  forall g, forallb P (emitted (m g)) = true.

(** A delta event for the property arrives right after the subscription to
    delta events has completed, before the main thread goes on. *)
Definition delta_race : list sched :=
  [ SMain CallReturns;                      (* print *)
    SMain CallReturns;                      (* subscribe_to_delta_events *)
    SMain CallReturns;                      (* delta_subscribed_future.result() *)
    SCallback (EvDelta CallReturns (delta_of "color" (PStr "red"))) ].

(** What holds of every state the system reaches from line 267: the main
    thread is at some position [n] of the startup body and has seen
    complete every future the body waits on before that position; the get
    request is published, and the input thread runs, only once every
    subscription has been seen to complete. *)
Definition startup_inv (s : sys) : Prop :=
  (forall rest, sys_main s = MainTry rest ->
     exists n, rest = skipn n startup_body
               /\ forall f, In (IAwait f) (firstn n startup_body) ->
                            completed f (sys_out s) = true)
  /\ (existsb is_publish_get (sys_out s) = true ->
      all_subscriptions_completed (sys_out s) = true)
  /\ (sys_input_running s = true ->
      all_subscriptions_completed (sys_out s) = true).

(** ** The lock around [shadow_value]

    [shadow_value_lock] is a plain [threading.Lock]: taking it while it is
    held blocks for ever.  [lock_scan held out] follows the lock through
    the actions [out] of one thread, starting with the lock held or not; it
    fails ([None]) when the lock is taken while held, released while free,
    when [shadow_value] is stored without the lock, or when a call on the
    connection or the shadow client is made with the lock held. *)

Definition lock_scan_step (held : bool) (e : effect) : option bool :=
  match e with
  | EPrint _ => Some held
  | EAcquire => if held then None else Some true
  | ERelease => if held then Some false else None
  | EStore _ => if held then Some true else None
  | EPublishUpdate _ | EAddDoneCallback | EDisconnect | ESubscribe _
  | EPublishGet | EAwaited _ | EStartInputThread =>
      if held then None else Some false
  end.

Fixpoint lock_scan (held : bool) (out : list effect) : option bool :=
  match out with
  | [] => Some held
  | e :: rest =>
      match lock_scan_step held e with
      | Some held' => lock_scan held' rest
      | None => None
      end
  end.

(** The computation [m], started with the lock in state [held], follows the
    discipline and leaves the lock as it found it. *)
Definition keeps_lock (held : bool) {A} (m : M A) : Prop :=
  forall g, lock_scan held (emitted (m g)) = Some held.

(** ** What one operation can do to the globals

    [handled g g' out]: from the globals [g], an operation that ends with
    the globals [g'] and the actions [out] did one of six things.  Console
    lines and lock operations are [quiet]. *)

Definition quiet (e : effect) : bool :=
  match e with
  | EPrint _ | EAcquire | ERelease => true
  | _ => false
  end.

Inductive handled (g : globals) : globals -> list effect -> Prop :=
| HQuiet (out : list effect) :
    forallb quiet out = true ->
    handled g g out
| HConnected (f : future_state) (out : list effect) :
    forallb quiet out = true ->
    handled g (set_connected_future f g) out
| HDone (out : list effect) :
    disconnect_called g = true ->
    forallb quiet out = true ->
    handled g (set_is_sample_done true g) out
| HAdopted (v : pyval) (pre suf : list effect) :
    v <> PNone ->
    shadow_value g = PNone ->
    forallb quiet pre = true -> forallb quiet suf = true ->
    handled g (set_shadow_value v g) (pre ++ EStore v :: suf)
| HChanged (po : call_result) (v : pyval) (pre : list effect) :
    v <> PNone ->
    py_eq (shadow_value g) v = false ->
    forallb quiet pre = true ->
    handled g (after_publish po (set_shadow_value v g))
      (pre ++ changed_lines v ++ publish_lines po g v)
| HExit (m : exit_msg) (pre : list effect) :
    forallb quiet pre = true ->
    handled g (set_disconnect_called true g) (pre ++ exit_lines m).

(** The globals the callbacks never write. *)
Definition same_configuration (g g' : globals) : Prop :=
  thing_name g' = thing_name g /\ shadow_property g' = shadow_property g.

(** The loop of [user_input_thread_fn] stops on this input. *)
Definition input_stops (inp : input_result) : bool :=
  match inp with
  | InputLine s => String.eqb s "exit" || String.eqb s "quit"
  | InputRaises _ => true
  end.

(** The reported value [on_update_accepted] looks up. *)
Definition accepted_value (response : UpdateShadowResponse) (prop : string)
  : option pyval :=
  match usr_state response with
  | Some st => carries (ss_reported st) prop
  | None => None
  end.

(** ** The calls of the main thread *)

(** The actions only the startup sequence performs. *)
Definition startup_call (e : effect) : bool := negb (callback_effect e).

Definition startup_calls (out : list effect) : list effect :=
  filter startup_call out.

(** The startup calls of a run of instructions in which every call
    returns. *)
Definition calls_of (body : list instr) : list effect :=
  flat_map (fun i => startup_calls (instr_effects i CallReturns)) body.

(** The calls of lines 272-321, in program order. *)
Definition full_startup_calls : list effect :=
  [ ESubscribe TDelta;
    EAwaited (FSubscribed TDelta);
    ESubscribe TUpdateAccepted;
    ESubscribe TUpdateRejected;
    EAwaited (FSubscribed TUpdateAccepted);
    EAwaited (FSubscribed TUpdateRejected);
    ESubscribe TGetAccepted;
    ESubscribe TGetRejected;
    EAwaited (FSubscribed TGetAccepted);
    EAwaited (FSubscribed TGetRejected);
    EPublishGet;
    EAwaited FPublishGet;
    EStartInputThread ].

Definition calls_inv (s : sys) : Prop :=
  (forall rest, sys_main s = MainTry rest ->
     exists n, rest = skipn n startup_body
               /\ startup_calls (sys_out s) = calls_of (firstn n startup_body))
  /\ exists k, startup_calls (sys_out s) = firstn k full_startup_calls.

(** The console line of [exit(repr(e))] at line 324: the startup sequence
    has failed. *)
Definition is_startup_failure (e : effect) : bool :=
  match e with
  | EPrint (LExitingSample (MsgStartup _)) => true
  | _ => false
  end.

Definition startup_failed (out : list effect) : bool :=
  existsb is_startup_failure out.

Definition is_start_input_thread (e : effect) : bool :=
  match e with EStartInputThread => true | _ => false end.

Definition input_thread_started (out : list effect) : bool :=
  existsb is_start_input_thread out.

(** What holds of the shutdown flags, the input thread and the end of the
    process in every state the system reaches from line 267. *)
Definition shutdown_inv (s : sys) : Prop :=
  let g := sys_globals s in
  (is_sample_done g = true -> disconnect_called g = true)
  /\ (disconnect_called g = true -> 1 <= disconnect_requests (sys_out s))
  /\ (sys_main s = MainExited -> is_sample_done g = true)
  /\ (forall rest, sys_main s = MainTry rest ->
        (exists n, rest = skipn n startup_body)
        /\ rest <> []
        /\ startup_failed (sys_out s) = false
        /\ sys_input_running s = false
        /\ input_thread_started (sys_out s) = false)
  /\ (startup_failed (sys_out s) = true ->
        sys_input_running s = false
        /\ input_thread_started (sys_out s) = false
        /\ disconnect_called g = true).

(** The first subscribe call raises. *)
Definition failing_startup : list sched :=
  [ SMain CallReturns;
    SMain (CallRaises (OtherError "no network")) ].

(** The startup runs through, the user types quit, the connection reports
    the disconnect, and the wait of the main thread returns. *)
Definition quit_run : list sched :=
  startup_alone
  ++ [ SCallback (EvUserInput CallReturns (InputLine "quit"));
       SCallback (EvDisconnected 0);
       SMain CallReturns ].

(** In the actions [out], every publish of the get request comes after the
    main thread has seen every subscription complete. *)
Definition get_after_subscriptions (out : list effect) : Prop :=
  forall pre rest,
    out = pre ++ EPublishGet :: rest ->
    all_subscriptions_completed pre = true.

(** The first statement of [exit], line 70, has run: the console line that
    opens the shutdown routine is among the actions.  [exit] prints it
    before it sets [disconnect_called] (line 73) and before it requests the
    disconnect (line 74). *)
Definition is_exiting (e : effect) : bool :=
  match e with
  | EPrint (LExitingSample _) => true
  | _ => false
  end.

Definition exit_entered (out : list effect) : bool :=
  existsb is_exiting out.

(** In every state the system reaches, [disconnect_called] is set only
    once the shutdown routine has been entered. *)
Definition exit_inv (s : sys) : Prop :=
  disconnect_called (sys_globals s) = true ->
  exit_entered (sys_out s) = true.

(** * Properties *)

Example startup_alone_trace :
  option_map sys_out (sys_run startup_alone (sys_init "lamp" "color")) =
  Some [ EPrint LSubscribingDelta; ESubscribe TDelta;
         EAwaited (FSubscribed TDelta);
         EPrint LSubscribingUpdate;
         ESubscribe TUpdateAccepted; ESubscribe TUpdateRejected;
         EAwaited (FSubscribed TUpdateAccepted);
         EAwaited (FSubscribed TUpdateRejected);
         EPrint LSubscribingGet;
         ESubscribe TGetAccepted; ESubscribe TGetRejected;
         EAwaited (FSubscribed TGetAccepted);
         EAwaited (FSubscribed TGetRejected);
         EPrint LRequestingState; EPublishGet; EAwaited FPublishGet;
         EPrint LLaunchingInputThread; EStartInputThread ].
Proof. reflexivity. Qed.


(** ** Values *)

Lemma py_eq_refl (v : pyval) : py_eq v v = true.
Proof.
  destruct v as [| b | z | s]; simpl.
  - reflexivity.
  - destruct b; reflexivity.
  - apply Z.eqb_refl.
  - apply String.eqb_refl.
Qed.

Lemma py_eq_none_l (v : pyval) : py_eq PNone v = is_none v.
Proof. destruct v; reflexivity. Qed.

Lemma py_eq_default (v : pyval) :
  py_eq v SHADOW_VALUE_DEFAULT = true -> v = SHADOW_VALUE_DEFAULT.
Proof.
  destruct v as [| b | z | s]; simpl; try discriminate.
  intros H. apply String.eqb_eq in H. now subst.
Qed.

Lemma truthy_not_none (v : pyval) : truthy v = true -> is_none v = false.
Proof. destruct v; simpl; intros H; try reflexivity; discriminate. Qed.

Lemma lookup_some_truthy (d : dict) (k : string) (v : pyval) :
  d !! k = Some v -> opt_dict_truthy (Some d) = true.
Proof.
  intros H. simpl. rewrite bool_decide_eq_false_2; [reflexivity |].
  intros ->. rewrite lookup_empty in H. discriminate.
Qed.

(** ** The change path in closed form *)

Lemma exit_run (m : exit_msg) (g : globals) :
  exit m g = mkRun (Returned tt) (set_disconnect_called true g) (exit_lines m).
Proof. reflexivity. Qed.

Lemma compare_and_set_run (v : pyval) (g : globals) :
  compare_and_set v g =
  if py_eq (shadow_value g) v
  then mkRun (Returned Unchanged) g (unchanged_lines v)
  else mkRun (Returned Changed) (set_shadow_value v g) (changed_lines v).
Proof.
  unfold compare_and_set, with_lock, bind, try_except, read; simpl.
  destruct (py_eq (shadow_value g) v); reflexivity.
Qed.

Lemma change_shadow_value_run (po : call_result) (v : pyval) (g : globals) :
  change_shadow_value po v g =
  if py_eq (shadow_value g) v
  then mkRun (Returned tt) g (unchanged_lines v)
  else mkRun (Returned tt) (after_publish po (set_shadow_value v g))
         (changed_lines v ++ publish_lines po g v).
Proof.
  unfold change_shadow_value, bind. rewrite compare_and_set_run.
  destruct (py_eq (shadow_value g) v); [reflexivity |].
  destruct po; reflexivity.
Qed.

Lemma after_publish_shadow_value (po : call_result) (g : globals) :
  shadow_value (after_publish po g) = shadow_value g.
Proof. destruct po; reflexivity. Qed.

Lemma filter_publish_lines (po : call_result) (g : globals) (v : pyval) :
  filter is_publish_update (changed_lines v ++ publish_lines po g v) =
  [EPublishUpdate (update_request (thing_name g) (shadow_property g) v)].
Proof. destruct po; reflexivity. Qed.

(** What a call of the change path leaves in [shadow_value], and the update
    requests it hands to the client. *)
Lemma change_shadow_value_value (po : call_result) (v : pyval) (g : globals) :
  shadow_value (post (change_shadow_value po v g)) =
  if py_eq (shadow_value g) v then shadow_value g else v.
Proof.
  rewrite change_shadow_value_run.
  destruct (py_eq (shadow_value g) v); simpl; [reflexivity |].
  now rewrite after_publish_shadow_value.
Qed.

Lemma change_shadow_value_publishes (po : call_result) (v : pyval) (g : globals) :
  filter is_publish_update (emitted (change_shadow_value po v g)) =
  if py_eq (shadow_value g) v then []
  else [EPublishUpdate (update_request (thing_name g) (shadow_property g) v)].
Proof.
  rewrite change_shadow_value_run.
  destruct (py_eq (shadow_value g) v); simpl emitted; [reflexivity |].
  apply filter_publish_lines.
Qed.

(** C3. The change path publishes an update exactly when the comparison
    under the lock reports [Changed]: that report is [Unchanged] when the
    value equals the stored one, and then the globals are left as they were
    and no update is published; it is [Changed] when the value differs, and
    then the value is stored and one request carrying it is handed to the
    client.  A second call with the same value, right after the first,
    reports [Unchanged], changes nothing and publishes nothing. *)
Theorem change_path_publishes_iff_changed
  (po po2 : call_result) (v : pyval) (g : globals) :
  let first := change_shadow_value po v g in
  let second := change_shadow_value po2 v (post first) in
  res (compare_and_set v g)
    = Returned (if py_eq (shadow_value g) v then Unchanged else Changed)
  /\ (existsb is_publish_update (emitted first) = true
      <-> res (compare_and_set v g) = Returned Changed)
  /\ (if py_eq (shadow_value g) v
      then post first = g
           /\ filter is_publish_update (emitted first) = []
      else shadow_value (post first) = v
           /\ filter is_publish_update (emitted first)
              = [EPublishUpdate
                   (update_request (thing_name g) (shadow_property g) v)])
  /\ res (compare_and_set v (post first)) = Returned Unchanged
  /\ post second = post first
  /\ filter is_publish_update (emitted second) = [].
Proof.
  intros first second.
  assert (Hsnd : py_eq (shadow_value (post first)) v = true).
  { unfold first. rewrite change_shadow_value_value.
    destruct (py_eq (shadow_value g) v) eqn:E; [exact E | apply py_eq_refl]. }
  repeat split.
  - rewrite compare_and_set_run. now destruct (py_eq (shadow_value g) v).
  - unfold first. rewrite change_shadow_value_run, compare_and_set_run.
    destruct (py_eq (shadow_value g) v); simpl; [discriminate | reflexivity].
  - unfold first. rewrite change_shadow_value_run, compare_and_set_run.
    destruct (py_eq (shadow_value g) v); simpl; [discriminate |].
    intros _. destruct po; reflexivity.
  - pose proof (change_shadow_value_value po v g) as Hv.
    pose proof (change_shadow_value_publishes po v g) as Hp.
    fold first in Hv, Hp.
    destruct (py_eq (shadow_value g) v) eqn:E.
    + split; [| exact Hp]. unfold first.
      rewrite change_shadow_value_run, E. reflexivity.
    + split; assumption.
  - rewrite compare_and_set_run, Hsnd. reflexivity.
  - unfold second. rewrite change_shadow_value_run, Hsnd. reflexivity.
  - unfold second. rewrite change_shadow_value_publishes, Hsnd. reflexivity.
Qed.

(** ** The handlers in closed form *)

Lemma if_nested {A} (a b : bool) (x y : A) :
  (if a then (if b then x else y) else y)
  = if (if a then b else false) then x else y.
Proof. destruct a, b; reflexivity. Qed.

Ltac unfold_monad :=
  unfold with_lock, print, read, emit, ret, raise, modify, try_except, bind.

Ltac by_change_path :=
  rewrite ?change_shadow_value_run;
  repeat match goal with
         | |- context [py_eq ?a ?b] => destruct (py_eq a b)
         | |- context [match ?po with CallReturns => _ | CallRaises _ => _ end] =>
             destruct po
         end;
  reflexivity.

Lemma offered_some (od : option dict) (prop : string) (v : pyval) :
  offered od prop = Some v ->
  opt_dict_truthy od = true /\ dict_get (default ∅ od) prop = v
  /\ truthy v = true /\ subscript od prop = ret v.
Proof.
  unfold offered, dict_get, subscript. destruct od as [d|]; [| discriminate].
  simpl default. destruct (d !! prop) as [w|] eqn:L; [| discriminate].
  destruct (truthy w) eqn:T; [| discriminate]. intros [= <-].
  repeat split; try assumption. eapply lookup_some_truthy; eassumption.
Qed.

Lemma offered_none (od : option dict) (prop : string) :
  offered od prop = None ->
  (if opt_dict_truthy od then truthy (dict_get (default ∅ od) prop) else false)
  = false.
Proof.
  unfold offered, dict_get. destruct od as [d|]; [| reflexivity].
  simpl default. destruct (opt_dict_truthy (Some d)); [| reflexivity].
  destruct (d !! prop) as [w|]; [| reflexivity].
  destruct (truthy w); [discriminate | reflexivity].
Qed.

(** The initial query on a store that holds no value yet. *)
Lemma on_get_accepted_run (po : call_result) (response : GetShadowResponse)
  (g : globals) :
  is_none (shadow_value g) = true ->
  on_get_accepted po response g =
  let prop := shadow_property g in
  let use_default :=
    prepend (query_head ++ [EPrint (LShadowLacksProperty prop)])
      (change_shadow_value po SHADOW_VALUE_DEFAULT g) in
  match gsr_state response with
  | None => use_default
  | Some st =>
      match offered (sd_delta st) prop with
      | Some v =>
          prepend (query_head ++ [EPrint (LShadowContainsDelta v)])
            (change_shadow_value po v g)
      | None =>
          match offered (sd_reported st) prop with
          | Some v =>
              mkRun (Returned tt) (set_shadow_value v g)
                (query_head ++ adopt_reported_lines v)
          | None => use_default
          end
      end
  end.
Proof.
  intros Hnone. unfold on_get_accepted. unfold_monad. rewrite Hnone.
  cbn -[change_shadow_value opt_dict_truthy dict_get default subscript
        set_local_value_due_to_initial_query].
  unfold prepend.
  destruct (gsr_state response) as [st|]; [| by_change_path].
  rewrite !if_nested.
  destruct (offered (sd_delta st) (shadow_property g)) as [v|] eqn:Hd.
  - destruct (offered_some _ _ _ Hd) as (H1 & H2 & H3 & _).
    rewrite H1, H2, H3. by_change_path.
  - rewrite (offered_none _ _ Hd).
    destruct (offered (sd_reported st) (shadow_property g)) as [v|] eqn:Hr.
    + destruct (offered_some _ _ _ Hr) as (H1 & H2 & H3 & H4).
      rewrite H1, H2, H3, H4. reflexivity.
    + rewrite (offered_none _ _ Hr). by_change_path.
Qed.

Lemma not_none_is_none (v : pyval) : v <> PNone -> is_none v = false.
Proof. destruct v; [congruence | reflexivity ..]. Qed.

Lemma is_none_false (v : pyval) : is_none v = false -> v <> PNone.
Proof. destruct v; [discriminate | congruence ..]. Qed.

(** A delta event, by what it says about the property. *)
Lemma on_delta_event_run (po : call_result) (delta : ShadowDeltaEvent)
  (g : globals) :
  on_delta_event po delta g =
  let prop := shadow_property g in
  match mentioned delta prop with
  | Some v =>
      prepend [EPrint LReceivedDelta;
               EPrint (if is_none v then LDeltaDeleted prop
                       else LDeltaDesired v)]
        (change_shadow_value po (adopted_from_delta v) g)
  | None =>
      mkRun (Returned tt) g
        [EPrint LReceivedDelta; EPrint (LDeltaNoChange prop)]
  end.
Proof.
  unfold on_delta_event, mentioned, adopted_from_delta, prepend.
  destruct delta as [[d|]]; simpl sde_state; [| reflexivity].
  unfold_monad. cbn -[change_shadow_value opt_dict_truthy].
  unfold dict_contains, subscript.
  destruct (d !! shadow_property g) as [v|] eqn:L.
  - rewrite (lookup_some_truthy _ _ _ L). cbn -[change_shadow_value].
    destruct (is_none v); by_change_path.
  - rewrite andb_false_r. reflexivity.
Qed.

(** The initial query on a store that already holds a value. *)
Lemma on_get_accepted_ignored
  (po : call_result) (response : GetShadowResponse) (g : globals) :
  is_none (shadow_value g) = false ->
  on_get_accepted po response g = mkRun (Returned tt) g ignored_lines.
Proof.
  intros H. unfold on_get_accepted. unfold_monad. rewrite H. reflexivity.
Qed.

(** C5. An initial-query success that arrives when the store already holds a
    value does nothing but write two console lines around taking and
    releasing the lock: the handler returns normally, every global (the
    stored value among them) is as before, nothing is stored, nothing is
    published and no disconnect is requested, whatever the snapshot
    holds. *)
Theorem on_get_accepted_initialized
  (po : call_result) (response : GetShadowResponse) (g : globals) :
  shadow_value g <> PNone ->
  let r := on_get_accepted po response g in
  res r = Returned tt
  /\ post r = g
  /\ emitted r = ignored_lines
  /\ published (emitted r) = []
  /\ disconnect_requests (emitted r) = 0.
Proof.
  intros H r. unfold r.
  rewrite (on_get_accepted_ignored po response g (not_none_is_none _ H)).
  repeat split.
Qed.

Lemma on_get_accepted_initialized_witness :
  let g := globals_with (PStr "blue") in
  let r := on_get_accepted CallReturns red_delta_response g in
  post r = g /\ published (emitted r) = [].
Proof.
  intros g r.
  destruct (on_get_accepted_initialized CallReturns red_delta_response g)
    as (_ & Hpost & _ & Hpub & _).
  - discriminate.
  - split; [exact Hpost | exact Hpub].
Defined.

(** ** The initial query *)

Lemma published_prepend_prints {A} (pre : list effect) (r : run_result A) :
  published pre = [] ->
  published (emitted (prepend pre r)) = published (emitted r).
Proof.
  intros H. unfold published, prepend in *. simpl.
  now rewrite filter_app, H.
Qed.

Lemma change_path_from_unset (po : call_result) (v : pyval) (g : globals) :
  is_none (shadow_value g) = true -> is_none v = false ->
  shadow_value (post (change_shadow_value po v g)) = v
  /\ published (emitted (change_shadow_value po v g)) = [request_for g v].
Proof.
  intros Hg Hv. unfold published, request_for.
  rewrite change_shadow_value_value, change_shadow_value_publishes.
  destruct (shadow_value g); try discriminate.
  rewrite py_eq_none_l, Hv. split; reflexivity.
Qed.

(** C2. The three-way resolution breaks on a value that is false under
    Python's truth test.  Handled while the store holds no value, a
    snapshot whose delta carries the property with the empty string does
    not take branch (1): the handler prints that the document lacks the
    property, stores the default and publishes the default.  The handler of
    delta events takes the same value for what it is and stores it. *)
Theorem initial_query_drops_empty_delta_value :
  let g := initial_globals "lamp" "color" in
  let r := on_get_accepted CallReturns empty_delta_response g in
  shadow_value g = PNone
  /\ (exists st, gsr_state empty_delta_response = Some st
                 /\ carries (sd_delta st) (shadow_property g)
                    = Some (PStr EmptyString))
  /\ r = mkRun (Returned tt) (set_shadow_value (PStr "off") g)
           (query_head
            ++ [EPrint (LShadowLacksProperty "color")]
            ++ changed_lines (PStr "off")
            ++ publish_lines CallReturns g (PStr "off"))
  /\ shadow_value (post r) = PStr "off"
  /\ shadow_value (post r) <> PStr EmptyString
  /\ published (emitted r) = [request_for g (PStr "off")]
  /\ shadow_value
       (post (on_delta_event CallReturns
                (delta_of "color" (PStr EmptyString)) g))
     = PStr EmptyString.
Proof.
  intros g r.
  split; [reflexivity |].
  split; [eexists; split; reflexivity |].
  split; [vm_compute; reflexivity |].
  split; [vm_compute; reflexivity |].
  split; [vm_compute; discriminate |].
  split; vm_compute; reflexivity.
Qed.

(** ** Delta events *)

(** C1 (amended). A delta event that mentions the property sends the value
    it takes up (the default when the property is null, the given value
    otherwise) through the change path: when that value differs from the
    stored one it is stored and one update carrying it is published; when it
    equals the stored one the store stays as it is and nothing is
    published. *)
Theorem on_delta_event_takes_change_path
  (po : call_result) (delta : ShadowDeltaEvent) (g : globals) (v : pyval) :
  mentioned delta (shadow_property g) = Some v ->
  let r := on_delta_event po delta g in
  let adopted := adopted_from_delta v in
  shadow_value (post r)
    = (if py_eq (shadow_value g) adopted then shadow_value g else adopted)
  /\ published (emitted r)
     = (if py_eq (shadow_value g) adopted then [] else [request_for g adopted]).
Proof.
  intros Hm r adopted. unfold r. rewrite on_delta_event_run. cbv zeta.
  rewrite Hm. split.
  - simpl post. apply change_shadow_value_value.
  - rewrite published_prepend_prints.
    + apply change_shadow_value_publishes.
    + destruct (is_none v); reflexivity.
Qed.

Lemma on_delta_event_takes_change_path_witness :
  let r := on_delta_event CallReturns (delta_of "color" PNone)
             (globals_with (PStr "blue")) in
  shadow_value (post r) = PStr "off"
  /\ published (emitted r)
     = [request_for (globals_with (PStr "blue")) (PStr "off")].
Proof.
  apply (on_delta_event_takes_change_path CallReturns (delta_of "color" PNone)
           (globals_with (PStr "blue")) PNone).
  reflexivity.
Defined.

(** C1 as stated fails: a delta event whose value equals the stored one
    publishes nothing. *)
Lemma delta_always_publishes_counterexample :
  ~ delta_always_publishes CallReturns (delta_of "color" (PStr "blue"))
      (globals_with (PStr "blue")).
Proof.
  intros H. specialize (H (PStr "blue") eq_refl).
  vm_compute in H.
  repeat (destruct H as [H | H]; [discriminate H |]). exact H.
Qed.

(** The default branch of the initial query on a store that holds no
    value. *)
Lemma default_run_from_unset (po : call_result) (g : globals) :
  is_none (shadow_value g) = true ->
  prepend (query_head ++ [EPrint (LShadowLacksProperty (shadow_property g))])
    (change_shadow_value po SHADOW_VALUE_DEFAULT g)
  = mkRun (Returned tt)
      (after_publish po (set_shadow_value SHADOW_VALUE_DEFAULT g))
      (query_head
       ++ [EPrint (LShadowLacksProperty (shadow_property g))]
       ++ changed_lines SHADOW_VALUE_DEFAULT
       ++ publish_lines po g SHADOW_VALUE_DEFAULT).
Proof.
  intros Hg. rewrite change_shadow_value_run.
  destruct (shadow_value g); try discriminate. reflexivity.
Qed.

(** C10. The empty string is treated differently at the two entries.
    A delta event that maps the property to the empty string takes it as a
    real value: it goes through the change path with the empty string, so
    the empty string is stored and published unless it is already the
    stored value; whatever value a delta event gives, the default is taken
    up exactly when that value is null.  In a successful initial query
    handled while the store holds no value, a delta section that maps the
    property to the empty string is skipped: the handler goes on to the
    reported section, storing without a publish the value that section
    offers, or else stores and publishes the default; a reported section
    that maps the property to the empty string is skipped likewise, and
    the default is stored and published unless the delta section offered a
    value.  In neither case is the empty string stored or published. *)
Theorem empty_string_asymmetry
  (po : call_result) (d : dict) (g : globals)
  (other desired : option dict) :
  d !! shadow_property g = Some (PStr EmptyString) ->
  let prop := shadow_property g in
  let delta_event := on_delta_event po {| sde_state := Some d |} g in
  let with_delta :=
    {| gsr_state := Some {| sd_delta := Some d; sd_reported := other;
                            sd_desired := desired |} |} in
  let with_reported :=
    {| gsr_state := Some {| sd_delta := other; sd_reported := Some d;
                            sd_desired := desired |} |} in
  let default_run :=
    mkRun (Returned tt)
      (after_publish po (set_shadow_value SHADOW_VALUE_DEFAULT g))
      (query_head
       ++ [EPrint (LShadowLacksProperty prop)]
       ++ changed_lines SHADOW_VALUE_DEFAULT
       ++ publish_lines po g SHADOW_VALUE_DEFAULT) in
  delta_event
  = prepend [EPrint LReceivedDelta; EPrint (LDeltaDesired (PStr EmptyString))]
      (change_shadow_value po (PStr EmptyString) g)
  /\ on_get_accepted po with_delta g
     = on_get_accepted po
         {| gsr_state := Some {| sd_delta := None; sd_reported := other;
                                 sd_desired := desired |} |} g
  /\ on_get_accepted po with_reported g
     = on_get_accepted po
         {| gsr_state := Some {| sd_delta := other; sd_reported := None;
                                 sd_desired := desired |} |} g
  /\ shadow_value (post delta_event)
     = (if py_eq (shadow_value g) (PStr EmptyString) then shadow_value g
        else PStr EmptyString)
  /\ published (emitted delta_event)
     = (if py_eq (shadow_value g) (PStr EmptyString) then []
        else [request_for g (PStr EmptyString)])
  /\ (forall (d' : dict) (w : pyval),
        d' !! prop = Some w ->
        on_delta_event po {| sde_state := Some d' |} g
        = prepend [EPrint LReceivedDelta;
                   EPrint (if is_none w then LDeltaDeleted prop
                           else LDeltaDesired w)]
            (change_shadow_value po
               (if is_none w then SHADOW_VALUE_DEFAULT else w) g))
  /\ on_get_accepted po with_delta g
     = (if is_none (shadow_value g)
        then match offered other prop with
             | Some w =>
                 mkRun (Returned tt) (set_shadow_value w g)
                   (query_head ++ adopt_reported_lines w)
             | None => default_run
             end
        else mkRun (Returned tt) g ignored_lines)
  /\ on_get_accepted po with_reported g
     = (if is_none (shadow_value g)
        then match offered other prop with
             | Some w =>
                 mkRun (Returned tt)
                   (after_publish po (set_shadow_value w g))
                   (query_head
                    ++ [EPrint (LShadowContainsDelta w)]
                    ++ changed_lines w
                    ++ publish_lines po g w)
             | None => default_run
             end
        else mkRun (Returned tt) g ignored_lines).
Proof.
  intros Hd prop delta_event with_delta with_reported default_run.
  assert (Hoff : offered (Some d) (shadow_property g) = None).
  { unfold offered. rewrite Hd. reflexivity. }
  assert (Hevent : forall (d' : dict) (w : pyval),
            d' !! prop = Some w ->
            on_delta_event po {| sde_state := Some d' |} g
            = prepend [EPrint LReceivedDelta;
                       EPrint (if is_none w then LDeltaDeleted prop
                               else LDeltaDesired w)]
                (change_shadow_value po
                   (if is_none w then SHADOW_VALUE_DEFAULT else w) g)).
  { intros d' w Hw. rewrite on_delta_event_run. cbv zeta.
    cbn [mentioned sde_state]. fold prop. rewrite Hw. reflexivity. }
  assert (Hdelta : delta_event
            = prepend [EPrint LReceivedDelta;
                       EPrint (LDeltaDesired (PStr EmptyString))]
                (change_shadow_value po (PStr EmptyString) g)).
  { exact (Hevent d (PStr EmptyString) Hd). }
  split; [exact Hdelta |].
  split; [| split; [| split; [| split; [| split; [exact Hevent |]]]]].
  - destruct (is_none (shadow_value g)) eqn:Hg.
    + unfold with_delta. rewrite !on_get_accepted_run by exact Hg. cbv zeta.
      cbn [gsr_state sd_delta sd_reported]. rewrite Hoff. reflexivity.
    + unfold with_delta. now rewrite !on_get_accepted_ignored by exact Hg.
  - destruct (is_none (shadow_value g)) eqn:Hg.
    + unfold with_reported. rewrite !on_get_accepted_run by exact Hg.
      cbv zeta. cbn [gsr_state sd_delta sd_reported]. rewrite Hoff.
      reflexivity.
    + unfold with_reported.
      now rewrite !on_get_accepted_ignored by exact Hg.
  - rewrite Hdelta. cbn [prepend post]. apply change_shadow_value_value.
  - rewrite Hdelta. rewrite published_prepend_prints by reflexivity.
    apply change_shadow_value_publishes.
  - split.
    + destruct (is_none (shadow_value g)) eqn:Hg.
      * unfold with_delta. rewrite on_get_accepted_run by exact Hg.
        cbv zeta. cbn [gsr_state sd_delta sd_reported]. rewrite Hoff.
        fold prop.
        destruct (offered other prop); [reflexivity |].
        apply default_run_from_unset, Hg.
      * unfold with_delta. now rewrite on_get_accepted_ignored by exact Hg.
    + destruct (is_none (shadow_value g)) eqn:Hg.
      * unfold with_reported. rewrite on_get_accepted_run by exact Hg.
        cbv zeta. cbn [gsr_state sd_delta sd_reported]. rewrite Hoff.
        fold prop.
        destruct (offered other prop) as [w |] eqn:Hw.
        -- pose proof (truthy_not_none w
                         (proj1 (proj2 (proj2 (offered_some _ _ _ Hw)))))
             as Hn.
           rewrite change_shadow_value_run.
           destruct (shadow_value g); try discriminate.
           rewrite py_eq_none_l, Hn. reflexivity.
        -- apply default_run_from_unset, Hg.
      * unfold with_reported.
        now rewrite on_get_accepted_ignored by exact Hg.
Qed.

Lemma empty_string_asymmetry_witness :
  let g := initial_globals "lamp" "color" in
  shadow_value
    (post (on_delta_event CallReturns (delta_of "color" (PStr EmptyString)) g))
  = PStr EmptyString
  /\ on_get_accepted CallReturns empty_delta_response g
     = mkRun (Returned tt) (set_shadow_value (PStr "off") g)
         (query_head
          ++ [EPrint (LShadowLacksProperty "color")]
          ++ changed_lines (PStr "off")
          ++ publish_lines CallReturns g (PStr "off")).
Proof.
  intros g.
  assert (Hd : ({[ "color" := PStr EmptyString ]} : dict)
                 !! shadow_property g
               = Some (PStr EmptyString)) by reflexivity.
  destruct (empty_string_asymmetry CallReturns {[ "color" := PStr EmptyString ]}
              g None None Hd)
    as (_ & _ & _ & Hvalue & _ & _ & Hget & _).
  split.
  - unfold delta_of. rewrite Hvalue. reflexivity.
  - unfold empty_delta_response. rewrite Hget. reflexivity.
Defined.

(** ** Rejection of the initial query *)

Lemma on_get_rejected_run (po : call_result) (error : ErrorResponse)
  (g : globals) :
  on_get_rejected po error g =
  if (err_code error =? 404)%Z
  then prepend [EPrint LNoShadowDocument]
         (change_shadow_value po SHADOW_VALUE_DEFAULT g)
  else mkRun (Returned tt) (set_disconnect_called true g)
         (exit_lines (MsgGetRejected (err_code error) (err_message error))).
Proof.
  unfold on_get_rejected. destruct (err_code error =? 404)%Z.
  - unfold_monad. unfold prepend. by_change_path.
  - apply exit_run.
Qed.

Lemma on_get_accepted_lacking (po : call_result) (response : GetShadowResponse)
  (g : globals) :
  is_none (shadow_value g) = true ->
  lacks_property response (shadow_property g) = true ->
  on_get_accepted po response g =
  prepend (query_head ++ [EPrint (LShadowLacksProperty (shadow_property g))])
    (change_shadow_value po SHADOW_VALUE_DEFAULT g).
Proof.
  intros Hg Hl. rewrite on_get_accepted_run by exact Hg. cbv zeta.
  unfold lacks_property in Hl.
  destruct (gsr_state response) as [st|]; [| reflexivity].
  destruct (offered (sd_delta st) (shadow_property g)); [discriminate |].
  destruct (offered (sd_reported st) (shadow_property g)); [discriminate |].
  reflexivity.
Qed.

(** C6 (amended). On a rejection of the initial query with code 404 the
    handler sends the default through the change path: afterwards the store
    holds the default, and one update carrying it is published unless the
    store held the default already, in which case nothing is published.
    When the store holds no value yet this is what a successful response
    that lacks the property does: same globals afterwards, same published
    request.  On any other code the handler calls the shutdown routine with
    the code and the message, and publishes nothing. *)
Theorem on_get_rejected_by_code
  (po : call_result) (error : ErrorResponse) (g : globals)
  (response : GetShadowResponse) :
  let r := on_get_rejected po error g in
  if (err_code error =? 404)%Z then
    shadow_value (post r) = SHADOW_VALUE_DEFAULT
    /\ published (emitted r)
       = (if py_eq (shadow_value g) SHADOW_VALUE_DEFAULT then []
          else [request_for g SHADOW_VALUE_DEFAULT])
    /\ (if is_none (shadow_value g)
           && lacks_property response (shadow_property g)
        then post r = post (on_get_accepted po response g)
             /\ published (emitted r)
                = published (emitted (on_get_accepted po response g))
             /\ published (emitted r) = [request_for g SHADOW_VALUE_DEFAULT]
        else True)
  else
    r = mkRun (Returned tt) (set_disconnect_called true g)
          (exit_lines (MsgGetRejected (err_code error) (err_message error)))
    /\ published (emitted r) = []
    /\ disconnect_requests (emitted r) = 1.
Proof.
  intros r. unfold r. rewrite on_get_rejected_run.
  destruct (err_code error =? 404)%Z.
  - split; [| split].
    + simpl post. rewrite change_shadow_value_value.
      destruct (py_eq (shadow_value g) SHADOW_VALUE_DEFAULT) eqn:E;
        [now apply py_eq_default | reflexivity].
    + rewrite published_prepend_prints by reflexivity.
      apply change_shadow_value_publishes.
    + destruct (is_none (shadow_value g)) eqn:Hg; [| exact I].
      destruct (lacks_property response (shadow_property g)) eqn:Hl;
        [| exact I].
      simpl andb. cbv iota.
      rewrite (on_get_accepted_lacking po response g Hg Hl).
      rewrite !published_prepend_prints by reflexivity.
      split; [reflexivity | split; [reflexivity |]].
      apply (change_path_from_unset po SHADOW_VALUE_DEFAULT g Hg eq_refl).
  - repeat split.
Qed.

(** C6 as stated fails: when the store already holds the default, a
    rejection with code 404 publishes nothing. *)
Lemma not_found_always_publishes_counterexample :
  ~ not_found_always_publishes CallReturns not_found
      (globals_with SHADOW_VALUE_DEFAULT).
Proof.
  intros H. destruct (H eq_refl) as [_ Hin].
  vm_compute in Hin.
  repeat (destruct Hin as [Hin | Hin]; [discriminate Hin |]). exact Hin.
Qed.

(** ** The publisher *)

(** C7. Every update request the change path hands to the client sets the
    reported and the desired field of the property to the same value, the
    one being adopted; in the order of actions the store to [shadow_value]
    of that value, and the release of the lock, come before the publish.
    When the publish completes successfully the callback only writes a
    console line and leaves every global as it is. *)
Theorem update_request_after_store
  (po : call_result) (v : pyval) (g g' : globals)
  (pre rest : list effect) (req : UpdateShadowRequest) :
  emitted (change_shadow_value po v g) = pre ++ EPublishUpdate req :: rest ->
  ss_reported (req_state req) = Some {[ shadow_property g := v ]}
  /\ ss_desired (req_state req) = ss_reported (req_state req)
  /\ req_thing_name req = thing_name g
  /\ In (EStore v) pre
  /\ In ERelease pre
  /\ shadow_value (post (change_shadow_value po v g)) = v
  /\ on_publish_update CallReturns g'
     = mkRun (Returned tt) g' [EPrint LUpdatePublished].
Proof.
  intros H. rewrite change_shadow_value_value.
  rewrite change_shadow_value_run in H.
  unfold unchanged_lines, changed_lines, publish_lines, exit_lines in H.
  destruct (py_eq (shadow_value g) v); simpl in H.
  - exfalso. repeat (destruct pre as [| ? pre]; simplify_eq/=).
  - destruct po;
      repeat (destruct pre as [| ? pre]; simplify_eq/=);
      repeat split; auto 10.
Qed.

Lemma update_request_after_store_witness :
  let g := globals_with (PStr "off") in
  let req := update_request "lamp" "color" (PStr "blue") in
  ss_reported (req_state req) = Some {[ "color" := PStr "blue" ]}
  /\ ss_desired (req_state req) = ss_reported (req_state req).
Proof.
  intros g req.
  assert (H : emitted (change_shadow_value CallReturns (PStr "blue") g)
              = (changed_lines (PStr "blue")
                 ++ [EPrint (LUpdatingReported (PStr "blue"))])
                ++ EPublishUpdate req :: [EAddDoneCallback])
    by reflexivity.
  destruct (update_request_after_store CallReturns (PStr "blue") g g _ _ _ H)
    as (Hr & Hd & _).
  split; [exact Hr | exact Hd].
Defined.

(** ** Shutdown *)

Lemma run_events_cons (ev : event) (evs : list event) (g : globals) :
  run_events (ev :: evs) g =
  (fst (run_events evs (post (handle ev g))),
   emitted (handle ev g) ++ snd (run_events evs (post (handle ev g)))).
Proof. simpl. destruct (run_events evs (post (handle ev g))). reflexivity. Qed.

(** C4 (amended). Every call of the shutdown routine, not only the first,
    sets the disconnect-requested flag and requests a disconnect: after n
    calls in a row the flag is set (for n > 0) and n disconnect requests
    have been made.  Setting the flag is idempotent; requesting the
    disconnect is not. *)
Theorem exit_requests_disconnect_on_every_call
  (msgs : list exit_msg) (g : globals) :
  disconnect_requests (snd (exit_calls msgs g)) = length msgs
  /\ disconnect_called (fst (exit_calls msgs g))
     = match msgs with [] => disconnect_called g | _ :: _ => true end
  /\ shadow_value (fst (exit_calls msgs g)) = shadow_value g.
Proof.
  unfold exit_calls. revert g.
  induction msgs as [| m msgs IH]; intros g.
  - repeat split.
  - cbn [map]. rewrite run_events_cons. cbn [handle fst snd].
    rewrite exit_run. cbn [post emitted].
    destruct (IH (set_disconnect_called true g)) as (Hn & Hf & Hv).
    split; [| split].
    + unfold disconnect_requests in *. rewrite filter_app, length_app, Hn.
      reflexivity.
    + rewrite Hf. destruct msgs; reflexivity.
    + rewrite Hv. reflexivity.
Qed.

(** C4 as stated fails: two calls of the shutdown routine request two
    disconnects. *)
Lemma shutdown_idempotent_counterexample :
  ~ shutdown_idempotent
      [MsgUserHasQuit; MsgFailedToPublish (OtherError "connection lost")]
      (initial_globals "lamp" "color").
Proof. unfold shutdown_idempotent. vm_compute. lia. Qed.

(** ** The store never goes back to holding no value *)

Lemma change_shadow_value_keeps (po : call_result) (v : pyval) (g : globals) :
  v <> PNone -> shadow_value g <> PNone ->
  shadow_value (post (change_shadow_value po v g)) <> PNone.
Proof.
  intros Hv Hg. rewrite change_shadow_value_value.
  now destruct (py_eq (shadow_value g) v).
Qed.

Lemma default_not_none : SHADOW_VALUE_DEFAULT <> PNone.
Proof. discriminate. Qed.

Lemma adopted_not_none (v : pyval) : adopted_from_delta v <> PNone.
Proof. destruct v; discriminate. Qed.

Lemma bind_ret_post {A} (m : M A) (g : globals) :
  post (bind m (fun _ => ret tt) g) = post (m g).
Proof.
  unfold bind, ret. destruct (m g) as [[a | e] g1 out]; reflexivity.
Qed.

Lemma user_input_iteration_value (po : call_result) (inp : input_result)
  (g : globals) :
  shadow_value (post (user_input_iteration po inp g)) = shadow_value g
  \/ exists s, inp = InputLine s
               /\ shadow_value (post (user_input_iteration po inp g))
                  = shadow_value (post (change_shadow_value po (PStr s) g)).
Proof.
  unfold user_input_iteration. destruct inp as [s | e].
  - destruct (String.eqb s "exit" || String.eqb s "quit") eqn:E.
    + left. unfold_monad. simpl. rewrite E. reflexivity.
    + right. exists s. split; [reflexivity |].
      unfold_monad. cbn -[change_shadow_value]. rewrite E.
      rewrite change_shadow_value_run.
      destruct (py_eq (shadow_value g) (PStr s)); [reflexivity |].
      destruct po; reflexivity.
  - left. reflexivity.
Qed.

Lemma handle_keeps_initialized (ev : event) (g : globals) :
  shadow_value g <> PNone -> shadow_value (post (handle ev g)) <> PNone.
Proof.
  intros Hg. destruct ev as [c s | c | po r | po e | po d | fr | r | e
                            | po inp | msg]; cbn [handle].
  - unfold on_connected. unfold_monad. simpl.
    destruct (connected_future g); try exact Hg.
    now destruct (c =? 0)%Z.
  - rewrite bind_ret_post. unfold on_disconnected. unfold_monad. simpl.
    now destruct (disconnect_called g).
  - now rewrite on_get_accepted_ignored by now apply not_none_is_none.
  - rewrite on_get_rejected_run. destruct (err_code e =? 404)%Z.
    + simpl post. apply change_shadow_value_keeps;
        [apply default_not_none | exact Hg].
    + exact Hg.
  - rewrite on_delta_event_run. cbv zeta.
    destruct (mentioned d (shadow_property g)) as [v|].
    + simpl post. apply change_shadow_value_keeps;
        [apply adopted_not_none | exact Hg].
    + exact Hg.
  - destruct fr; exact Hg.
  - unfold on_update_accepted, subscript. unfold_monad. simpl.
    destruct (usr_state r) as [[[rep|] des]|]; simpl; try exact Hg.
    destruct (rep !! shadow_property g); exact Hg.
  - exact Hg.
  - rewrite bind_ret_post.
    destruct (user_input_iteration_value po inp g) as [-> | (s & _ & ->)].
    + exact Hg.
    + apply change_shadow_value_keeps; [discriminate | exact Hg].
  - exact Hg.
Qed.

(** The scenario of the specification: the initial query reports "off",
    then a delta event asks for "blue", then the user types "blue". *)
Example end_to_end_scenario :
  let reported_off :=
    {| gsr_state := Some {| sd_delta := None;
                            sd_reported := Some {[ "color" := PStr "off" ]};
                            sd_desired := None |} |} in
  let g0 := initial_globals "lamp" "color" in
  let '(g1, out1) := run_events [EvGetAccepted CallReturns reported_off] g0 in
  let '(g2, out2) :=
    run_events [EvDelta CallReturns (delta_of "color" (PStr "blue"))] g1 in
  let '(g3, out3) :=
    run_events [EvUserInput CallReturns (InputLine "blue")] g2 in
  shadow_value g1 = PStr "off" /\ published out1 = []
  /\ shadow_value g2 = PStr "blue"
  /\ published out2 = [request_for g0 (PStr "blue")]
  /\ shadow_value g3 = PStr "blue" /\ published out3 = [].
Proof. vm_compute. repeat split. Qed.

(** C9. Once the store holds a value it never goes back to holding none:
    after any sequence of delta events, initial-query results, local change
    requests, completions and responses of updates, disconnect notices and
    calls of the shutdown routine, [shadow_value] is still set. *)
Theorem initialized_never_reverts (evs : list event) (g : globals) :
  shadow_value g <> PNone ->
  shadow_value (fst (run_events evs g)) <> PNone.
Proof.
  revert g. induction evs as [| ev evs IH]; intros g Hg.
  - exact Hg.
  - rewrite run_events_cons. cbn [fst].
    apply IH, handle_keeps_initialized, Hg.
Qed.

Lemma initialized_never_reverts_witness :
  shadow_value
    (fst (run_events
            [EvDelta CallReturns (delta_of "color" PNone);
             EvGetAccepted CallReturns empty_delta_response;
             EvUserInput CallReturns (InputLine EmptyString);
             EvGetRejected (CallRaises (OtherError "offline")) not_found;
             EvUserInput CallReturns (InputLine "quit")]
            (globals_with (PStr "blue")))) <> PNone.
Proof.
  apply (initialized_never_reverts _ (globals_with (PStr "blue"))).
  discriminate.
Defined.

(** ** What callbacks can emit *)

Section EmitsOnly.
Variable P : effect -> bool.

Lemma emits_only_ret {A} (a : A) : emits_only P (ret a).
Proof. intros g. reflexivity. Qed.

Lemma emits_only_raise {A} (e : exn) : emits_only P (@raise A e).
Proof. intros g. reflexivity. Qed.

Lemma emits_only_read {A} (f : globals -> A) : emits_only P (read f).
Proof. intros g. reflexivity. Qed.

Lemma emits_only_modify (f : globals -> globals) : emits_only P (modify f).
Proof. intros g. reflexivity. Qed.

Lemma emits_only_emit (e : effect) : P e = true -> emits_only P (emit e).
Proof. intros H g. simpl. now rewrite H. Qed.

Lemma emits_only_bind {A B} (m : M A) (f : A -> M B) :
  emits_only P m -> (forall a, emits_only P (f a)) ->
  emits_only P (bind m f).
Proof.
  intros Hm Hf g. unfold bind. specialize (Hm g).
  destruct (m g) as [[a | e] g1 out1]; simpl in *; [| exact Hm].
  specialize (Hf a g1). destruct (f a g1) as [r g2 out2]; simpl in *.
  rewrite forallb_app, Hm, Hf. reflexivity.
Qed.

Lemma emits_only_try_except {A} (m : M A) (h : exn -> M A) :
  emits_only P m -> (forall e, emits_only P (h e)) ->
  emits_only P (try_except m h).
Proof.
  intros Hm Hh g. unfold try_except. specialize (Hm g).
  destruct (m g) as [[a | e] g1 out1]; simpl in *; [exact Hm |].
  specialize (Hh e g1). destruct (h e g1) as [r g2 out2]; simpl in *.
  rewrite forallb_app, Hm, Hh. reflexivity.
Qed.
End EmitsOnly.

Create HintDb emits.
#[local] Hint Resolve emits_only_ret emits_only_raise emits_only_read
  emits_only_modify : emits.

Ltac emits_step :=
  match goal with
  | |- emits_only _ (bind _ _) => apply emits_only_bind; [| intros ?]
  | |- emits_only _ (try_except _ _) =>
      apply emits_only_try_except; [| intros ?]
  | |- emits_only _ (emit _) => apply emits_only_emit; reflexivity
  | |- emits_only _ (print _) => apply emits_only_emit; reflexivity
  | |- emits_only _ (if ?c then _ else _) => destruct c
  | |- emits_only _ (match ?x with _ => _ end) => destruct x
  | |- emits_only _ _ => solve [auto with emits]
  end.

Ltac emits_tac := repeat emits_step.

Lemma exit_emits (msg : exit_msg) : emits_only callback_effect (exit msg).
Proof. unfold exit. emits_tac. Qed.

Lemma change_shadow_value_emits (po : call_result) (v : pyval) :
  emits_only callback_effect (change_shadow_value po v).
Proof.
  unfold change_shadow_value, compare_and_set, publish_reported,
    publish_update, with_lock, store_shadow_value.
  emits_tac; apply exit_emits.
Qed.

#[local] Hint Resolve exit_emits change_shadow_value_emits : emits.

Lemma handle_emits (ev : event) : emits_only callback_effect (handle ev).
Proof.
  destruct ev; cbn [handle];
    unfold on_connected, on_disconnected, on_get_accepted, on_get_rejected,
      on_delta_event, on_publish_update, on_update_accepted,
      on_update_rejected, user_input_iteration,
      set_local_value_due_to_initial_query, with_lock, store_shadow_value,
      subscript;
    emits_tac.
Qed.

(** ** The startup sequence *)

Lemma completed_app (f : awaited) (out new : list effect) :
  completed f (out ++ new) = completed f out || completed f new.
Proof. apply existsb_app. Qed.

Lemma completed_mono (f : awaited) (out new : list effect) :
  completed f out = true -> completed f (out ++ new) = true.
Proof. intros H. now rewrite completed_app, H. Qed.

Lemma all_completed_mono (out new : list effect) :
  all_subscriptions_completed out = true ->
  all_subscriptions_completed (out ++ new) = true.
Proof.
  unfold all_subscriptions_completed. rewrite !forallb_forall.
  intros H t Ht. apply completed_mono, H, Ht.
Qed.

Lemma callback_effects_no_publish_get (l : list effect) :
  forallb callback_effect l = true -> existsb is_publish_get l = false.
Proof.
  induction l as [| e l IH]; simpl; [reflexivity |].
  intros H. apply andb_prop in H as [He Hl].
  rewrite (IH Hl). destruct e; try discriminate; reflexivity.
Qed.

Lemma exit_lines_callback (m : exit_msg) :
  forallb callback_effect (exit_lines m) = true.
Proof. reflexivity. Qed.

(** Position [n] of the body holds the instruction [i]. *)
Lemma skipn_step (n : nat) (i : instr) (rest : list instr) :
  i :: rest = skipn n startup_body ->
  rest = skipn (S n) startup_body
  /\ firstn (S n) startup_body = firstn n startup_body ++ [i].
Proof.
  intros H.
  do 18 (destruct n as [| n]; [injection H as -> ->; split; reflexivity |]).
  exfalso. simpl in H. destruct n; discriminate H.
Qed.

Lemma publish_get_position (n : nat) (rest : list instr) :
  IPublishGet :: rest = skipn n startup_body -> n = 14.
Proof.
  intros H.
  do 18 (destruct n as [| n]; [first [discriminate H | reflexivity] |]).
  exfalso. simpl in H. destruct n; discriminate H.
Qed.

Lemma start_input_position (n : nat) (rest : list instr) :
  IStartInputThread :: rest = skipn n startup_body -> n = 17.
Proof.
  intros H.
  do 18 (destruct n as [| n]; [first [discriminate H | reflexivity] |]).
  exfalso. simpl in H. destruct n; discriminate H.
Qed.

Lemma awaited_all_before (n : nat) (out : list effect) :
  n = 14 \/ n = 17 ->
  (forall f, In (IAwait f) (firstn n startup_body) -> completed f out = true) ->
  all_subscriptions_completed out = true.
Proof.
  intros Hn H. unfold all_subscriptions_completed. apply forallb_forall.
  intros t Ht. apply H. simpl in Ht.
  destruct Hn as [-> | ->];
    destruct Ht as [<- | [<- | [<- | [<- | [<- | []]]]]];
    simpl; auto 20.
Qed.

Lemma instr_publish_get (i : instr) (r : call_result) :
  existsb is_publish_get (instr_effects i r) = true -> i = IPublishGet.
Proof. destruct i, r; simpl; intros H; try discriminate; reflexivity. Qed.

Lemma startup_inv_init (thing prop : string) :
  startup_inv (sys_init thing prop).
Proof.
  split; [| split]; simpl; try discriminate.
  intros rest [= <-]. exists 0. split; [reflexivity |]. intros f [].
Qed.

(** When the main thread publishes the get request, it has seen every
    subscription complete. *)
Lemma main_publish_get_ok (s : sys) (i : instr) (rest : list instr)
  (r : call_result) (extra : list effect) :
  startup_inv s -> sys_main s = MainTry (i :: rest) ->
  forallb callback_effect extra = true ->
  existsb is_publish_get (sys_out s ++ instr_effects i r ++ extra) = true ->
  all_subscriptions_completed (sys_out s) = true.
Proof.
  intros (Ha & Hb & _) Hmain Hextra H.
  rewrite !existsb_app, (callback_effects_no_publish_get _ Hextra),
    orb_false_r in H.
  apply orb_prop in H as [H | H]; [exact (Hb H) |].
  apply instr_publish_get in H. subst i.
  destruct (Ha _ Hmain) as (n & Hn & Haw).
  apply (awaited_all_before n); [| exact Haw].
  left. eapply publish_get_position, Hn.
Qed.

Lemma main_step_inv (r : call_result) (s s' : sys) :
  startup_inv s -> main_step r s = Some s' -> startup_inv s'.
Proof.
  intros Hinv Hstep. pose proof Hinv as (Ha & Hb & Hc).
  unfold main_step in Hstep.
  destruct (sys_main s) as [[| i rest] | |] eqn:Hmain.
  - injection Hstep as <-. split; [| split]; simpl; [discriminate | exact Hb | exact Hc].
  - destruct (Ha _ eq_refl) as (n & Hn & Haw).
    destruct (skipn_step n i rest Hn) as [Hrest Hfirst].
    destruct r as [| e].
    + injection Hstep as <-. split; [| split]; cbn [sys_main sys_out sys_input_running].
      * intros rest' Hrest'. exists (S n).
        assert (rest' = rest) as ->.
        { destruct rest; [discriminate | now injection Hrest']. }
        split; [exact Hrest |]. intros f Hf. rewrite Hfirst in Hf.
        apply in_app_or in Hf as [Hf | [Hi | []]].
        -- apply completed_mono, Haw, Hf.
        -- subst i. rewrite completed_app. simpl.
           replace (awaited_eqb f f) with true; [apply orb_true_r |].
           destruct f as [[] |]; reflexivity.
      * intros H. apply all_completed_mono.
        apply (main_publish_get_ok s i rest CallReturns [] Hinv Hmain eq_refl).
        now rewrite app_nil_r.
      * intros H. apply all_completed_mono.
        apply orb_prop in H as [H | H]; [exact (Hc H) |].
        destruct i; try discriminate.
        apply (awaited_all_before n); [| exact Haw].
        right. eapply start_input_position, Hn.
    + destruct (instr_may_raise i); [| discriminate].
      cbv zeta in Hstep. rewrite exit_run in Hstep. injection Hstep as <-.
      split; [| split]; cbn [sys_main sys_out sys_input_running post emitted].
      * discriminate.
      * intros H. apply all_completed_mono.
        exact (main_publish_get_ok s i rest (CallRaises e) _ Hinv Hmain
                 (exit_lines_callback _) H).
      * intros H. apply all_completed_mono, Hc, H.
  - destruct (is_sample_done (sys_globals s)); [| discriminate].
    injection Hstep as <-.
    split; [| split]; cbn [sys_main sys_out sys_input_running];
      [discriminate | exact Hb | discriminate].
  - discriminate.
Qed.

Lemma callback_step_out (ev : event) (s s' : sys) :
  callback_step ev s = Some s' ->
  enabled ev s = true
  /\ sys_main s' = sys_main s
  /\ sys_main s <> MainExited
  /\ sys_globals s' = post (handle ev (sys_globals s))
  /\ sys_out s' = sys_out s ++ emitted (handle ev (sys_globals s))
  /\ (sys_input_running s' = true -> sys_input_running s = true).
Proof.
  unfold callback_step. intros H.
  assert (Hlive : sys_main s <> MainExited).
  { intros Hm. rewrite Hm in H. discriminate. }
  assert (H' :
    (if enabled ev s then
       Some (mkSys (post (handle ev (sys_globals s))) (sys_main s)
               (match ev with
                | EvUserInput po inp =>
                    match res (user_input_iteration po inp (sys_globals s)) with
                    | Returned again => again
                    | Raised _ => false
                    end
                | _ => sys_input_running s
                end)
               (match ev with
                | EvPublishDone _ => Nat.pred (sys_pending_done s)
                | _ => sys_pending_done s
                end + count_registered (emitted (handle ev (sys_globals s))))
               (sys_out s ++ emitted (handle ev (sys_globals s))))
     else None) = Some s').
  { destruct (sys_main s); [exact H | exact H | contradiction]. }
  clear H. destruct (enabled ev s) eqn:E; [| discriminate].
  injection H' as <-. cbn [sys_main sys_globals sys_out sys_input_running].
  repeat split; try assumption.
  intros Hb. destruct ev; try exact Hb. exact E.
Qed.

Lemma callback_step_inv (ev : event) (s s' : sys) :
  startup_inv s -> callback_step ev s = Some s' -> startup_inv s'.
Proof.
  intros (Ha & Hb & Hc) Hstep.
  destruct (callback_step_out ev s s' Hstep) as (_ & Hmain & _ & _ & Hout & Hrun).
  split; [| split]; rewrite Hout.
  - rewrite Hmain. intros rest Hrest.
    destruct (Ha rest Hrest) as (n & Hn & Haw).
    exists n. split; [exact Hn |]. intros f Hf. apply completed_mono, Haw, Hf.
  - rewrite existsb_app,
      (callback_effects_no_publish_get _ (handle_emits ev (sys_globals s))),
      orb_false_r.
    intros H. apply all_completed_mono, Hb, H.
  - intros H. apply all_completed_mono, Hc, Hrun, H.
Qed.

Lemma sys_run_inv (cs : list sched) (s s' : sys) :
  startup_inv s -> sys_run cs s = Some s' -> startup_inv s'.
Proof.
  revert s. induction cs as [| c cs IH]; intros s Hinv Hrun.
  - injection Hrun as <-. exact Hinv.
  - simpl in Hrun. destruct (sys_step c s) as [s1 |] eqn:Hstep; [| discriminate].
    apply (IH s1); [| exact Hrun].
    destruct c as [r | ev]; simpl in Hstep.
    + eapply main_step_inv; eassumption.
    + eapply callback_step_inv; eassumption.
Qed.

Lemma instr_no_publish_update (i : instr) (r : call_result) :
  existsb is_publish_update (instr_effects i r) = false.
Proof. destruct i, r; reflexivity. Qed.

Lemma quiet_handlers_no_publish_update (ev : event) (g : globals) :
  match ev with
  | EvDisconnected _ | EvPublishDone _ | EvUpdateAccepted _
  | EvUpdateRejected _ | EvExit _ | EvConnected _ _ => True
  | _ => False
  end ->
  existsb is_publish_update (emitted (handle ev g)) = false.
Proof.
  destruct ev as [c s | c | po r | po e | po d | fr | r | e | po inp | msg];
    intros H; try contradiction; cbn [handle].
  - unfold on_connected. unfold_monad. simpl.
    destruct (connected_future g); try reflexivity. now destruct (c =? 0)%Z.
  - unfold on_disconnected. unfold_monad. simpl.
    now destruct (disconnect_called g).
  - now destruct fr.
  - unfold on_update_accepted, subscript. unfold_monad. simpl.
    destruct (usr_state r) as [[[rep|] des]|]; simpl; try reflexivity.
    now destruct (rep !! shadow_property g).
  - reflexivity.
  - reflexivity.
Qed.

(** At the step that publishes the get request, the main thread has already
    seen every subscription complete; and so it has at every step that
    publishes an update, unless that step is the callback of a delta
    event. *)
Lemma publishes_wait_for_subscriptions
  (thing prop : string) (cs : list sched) (c : sched) (s s' : sys)
  (new : list effect) :
  sys_run cs (sys_init thing prop) = Some s ->
  sys_step c s = Some s' ->
  sys_out s' = sys_out s ++ new ->
  (existsb is_publish_get new = true ->
   all_subscriptions_completed (sys_out s) = true)
  /\ (existsb is_publish_update new = true ->
      (exists po d, c = SCallback (EvDelta po d))
      \/ all_subscriptions_completed (sys_out s) = true).
Proof.
  intros Hrun Hstep Hout.
  pose proof (sys_run_inv cs _ s (startup_inv_init thing prop) Hrun) as Hinv.
  pose proof Hinv as (Ha & Hb & Hc).
  destruct c as [r | ev]; simpl in Hstep.
  - unfold main_step in Hstep.
    destruct (sys_main s) as [[| i rest] | |] eqn:Hmain.
    + injection Hstep as <-. simpl in Hout.
      rewrite <- (app_nil_r (sys_out s)) in Hout at 1.
      apply app_inv_head in Hout. subst new. split; discriminate.
    + assert (Hnew : exists extra,
                new = instr_effects i r ++ extra
                /\ forallb callback_effect extra = true
                /\ existsb is_publish_update extra = false).
      { destruct r as [| e].
        - injection Hstep as <-. simpl in Hout. apply app_inv_head in Hout.
          exists []. now rewrite app_nil_r.
        - destruct (instr_may_raise i); [| discriminate].
          cbv zeta in Hstep. rewrite exit_run in Hstep.
          injection Hstep as <-. simpl in Hout. apply app_inv_head in Hout.
          eexists. split; [symmetry; exact Hout | split; reflexivity]. }
      destruct Hnew as (extra & -> & Hextra & Hquiet). split.
      * intros H.
        apply (main_publish_get_ok s i rest r extra Hinv Hmain Hextra).
        rewrite existsb_app, H. apply orb_true_r.
      * intros H. exfalso.
        rewrite existsb_app, instr_no_publish_update, Hquiet in H.
        discriminate H.
    + destruct (is_sample_done (sys_globals s)); [| discriminate].
      injection Hstep as <-. simpl in Hout.
      rewrite <- (app_nil_r (sys_out s)) in Hout at 1.
      apply app_inv_head in Hout. subst new. split; discriminate.
    + discriminate.
  - destruct (callback_step_out ev s s' Hstep)
      as (Hen & _ & _ & _ & Hout' & _).
    rewrite Hout' in Hout. apply app_inv_head in Hout. subst new. split.
    + rewrite (callback_effects_no_publish_get _
                 (handle_emits ev (sys_globals s))). discriminate.
    + intros H.
      destruct ev as [c st | c | po r | po e | po d | fr | r | e | po inp
                     | msg];
        try (rewrite quiet_handlers_no_publish_update in H by exact I;
             discriminate H).
      * right. simpl in Hen. apply andb_prop in Hen as [_ Hen]. exact (Hb Hen).
      * right. simpl in Hen. apply andb_prop in Hen as [_ Hen]. exact (Hb Hen).
      * left. eauto.
      * right. simpl in Hen. exact (Hc Hen).
Qed.

(** The startup sequence alone satisfies the order it is written in. *)
Example startup_alone_ordered :
  exists s, sys_run startup_alone (sys_init "lamp" "color") = Some s
            /\ sys_main s = MainWaitDone
            /\ sys_input_running s = true
            /\ all_subscriptions_completed (sys_out s) = true
            /\ existsb is_publish_update (sys_out s) = false.
Proof. eexists. split; [vm_compute; reflexivity |]. repeat split. Qed.

(** C8. The startup sequence waits for the get subscriptions before it
    publishes the get request, but it does not keep every update publish
    behind the update subscriptions: it subscribes to delta events first, so
    a delta event delivered once that subscription has completed makes the
    callback publish an update while the subscriptions to update-accepted and
    update-rejected have not even been requested.  The startup sequence then
    runs to its end as usual. *)
Theorem delta_update_precedes_update_subscriptions :
  exists s,
    sys_run delta_race (sys_init "lamp" "color") = Some s
    /\ sys_out s
       = [ EPrint LSubscribingDelta; ESubscribe TDelta;
           EAwaited (FSubscribed TDelta);
           EPrint LReceivedDelta; EPrint (LDeltaDesired (PStr "red"));
           EAcquire; EPrint (LChangedLocalValue (PStr "red"));
           EStore (PStr "red"); ERelease;
           EPrint (LUpdatingReported (PStr "red"));
           EPublishUpdate (update_request "lamp" "color" (PStr "red"));
           EAddDoneCallback ]
    /\ sys_main s = MainTry (skipn 3 startup_body)
    /\ existsb is_publish_update (sys_out s) = true
    /\ subscribed TUpdateAccepted (sys_out s) = false
    /\ subscribed TUpdateRejected (sys_out s) = false
    /\ completed (FSubscribed TUpdateAccepted) (sys_out s) = false
    /\ completed (FSubscribed TUpdateRejected) (sys_out s) = false
    /\ option_map sys_main
         (sys_run (repeat (SMain CallReturns) 15) s) = Some MainWaitDone.
Proof.
  eexists. split; [vm_compute; reflexivity |].
  repeat split; vm_compute; reflexivity.
Qed.

(** * Further properties of the sample *)

(** ** The lock *)

Lemma lock_scan_app (held : bool) (a b : list effect) :
  lock_scan held (a ++ b) =
  match lock_scan held a with
  | Some held' => lock_scan held' b
  | None => None
  end.
Proof.
  revert held. induction a as [| e a IH]; intros held; simpl; [reflexivity |].
  destruct (lock_scan_step held e); [apply IH | reflexivity].
Qed.

Lemma keeps_lock_ret (h : bool) {A} (a : A) : keeps_lock h (ret a).
Proof. intros g. reflexivity. Qed.

Lemma keeps_lock_raise (h : bool) {A} (e : exn) : keeps_lock h (@raise A e).
Proof. intros g. reflexivity. Qed.

Lemma keeps_lock_read (h : bool) {A} (f : globals -> A) : keeps_lock h (read f).
Proof. intros g. reflexivity. Qed.

Lemma keeps_lock_modify (h : bool) (f : globals -> globals) :
  keeps_lock h (modify f).
Proof. intros g. reflexivity. Qed.

Lemma keeps_lock_emit (h : bool) (e : effect) :
  lock_scan_step h e = Some h -> keeps_lock h (emit e).
Proof. intros H g. simpl. now rewrite H. Qed.

Lemma keeps_lock_bind (h : bool) {A B} (m : M A) (f : A -> M B) :
  keeps_lock h m -> (forall a, keeps_lock h (f a)) -> keeps_lock h (bind m f).
Proof.
  intros Hm Hf g. unfold bind. specialize (Hm g).
  destruct (m g) as [[a | e] g1 out1]; simpl in *; [| exact Hm].
  specialize (Hf a g1). destruct (f a g1) as [r g2 out2]; simpl in *.
  now rewrite lock_scan_app, Hm.
Qed.

Lemma keeps_lock_try_except (h : bool) {A} (m : M A) (k : exn -> M A) :
  keeps_lock h m -> (forall e, keeps_lock h (k e)) ->
  keeps_lock h (try_except m k).
Proof.
  intros Hm Hk g. unfold try_except. specialize (Hm g).
  destruct (m g) as [[a | e] g1 out1]; simpl in *; [exact Hm |].
  specialize (Hk e g1). destruct (k e g1) as [r g2 out2]; simpl in *.
  now rewrite lock_scan_app, Hm.
Qed.

(** The body of a [with] block runs with the lock held; the block as a
    whole starts and ends with the lock free, also when the body raises. *)
Lemma keeps_lock_with_lock {A} (body : M A) :
  keeps_lock true body -> keeps_lock false (with_lock body).
Proof.
  intros Hb g. unfold with_lock, bind, try_except, emit, ret, raise.
  specialize (Hb g).
  destruct (body g) as [[a | e] g1 out1]; simpl in *;
    rewrite lock_scan_app, Hb; reflexivity.
Qed.

Create HintDb locks.
#[local] Hint Resolve keeps_lock_ret keeps_lock_raise keeps_lock_read
  keeps_lock_modify : locks.

Ltac lock_step :=
  match goal with
  | |- keeps_lock false (with_lock _) => apply keeps_lock_with_lock
  | |- keeps_lock _ (bind _ _) => apply keeps_lock_bind; [| intros ?]
  | |- keeps_lock _ (try_except _ _) =>
      apply keeps_lock_try_except; [| intros ?]
  | |- keeps_lock _ (emit _) => apply keeps_lock_emit; reflexivity
  | |- keeps_lock _ (print _) => apply keeps_lock_emit; reflexivity
  | |- keeps_lock _ (if ?c then _ else _) => destruct c
  | |- keeps_lock _ (match ?x with _ => _ end) => destruct x
  | |- keeps_lock _ _ => solve [auto with locks]
  end.

Ltac lock_tac := repeat lock_step.

Lemma exit_keeps_lock (msg : exit_msg) : keeps_lock false (exit msg).
Proof. unfold exit. lock_tac. Qed.

Lemma change_shadow_value_keeps_lock (po : call_result) (v : pyval) :
  keeps_lock false (change_shadow_value po v).
Proof.
  unfold change_shadow_value, compare_and_set, publish_reported,
    publish_update, store_shadow_value.
  lock_tac; apply exit_keeps_lock.
Qed.

#[local] Hint Resolve exit_keeps_lock change_shadow_value_keeps_lock : locks.

Lemma handle_keeps_lock (ev : event) : keeps_lock false (handle ev).
Proof.
  destruct ev; cbn [handle];
    unfold on_connected, on_disconnected, on_get_accepted, on_get_rejected,
      on_delta_event, on_publish_update, on_update_accepted,
      on_update_rejected, user_input_iteration,
      set_local_value_due_to_initial_query, store_shadow_value, subscript;
    lock_tac.
Qed.

(** The scan does reject what the discipline forbids. *)
Example lock_scan_rejects :
  lock_scan false [EStore (PStr "red")] = None
  /\ lock_scan false [EAcquire; EAcquire] = None
  /\ lock_scan false [EAcquire; EDisconnect; ERelease] = None
  /\ lock_scan false [ERelease] = None.
Proof. repeat split. Qed.

(** X1. In the actions of any sequence of operations the lock is taken and
    released in turn, never taken while held; every store to [shadow_value]
    happens with the lock held, and every publish, every registration of a
    done-callback and every disconnect request happens with the lock
    free. *)
Theorem lock_discipline (evs : list event) (g : globals) :
  lock_scan false (snd (run_events evs g)) = Some false.
Proof.
  revert g. induction evs as [| ev evs IH]; intros g; [reflexivity |].
  rewrite run_events_cons. cbn [snd].
  now rewrite lock_scan_app, (handle_keeps_lock ev g).
Qed.

(** ** What one operation can do *)

Lemma handled_eq (g g1 g2 : globals) (out1 out2 : list effect) :
  handled g g1 out1 -> g1 = g2 -> out1 = out2 -> handled g g2 out2.
Proof. intros H -> ->. exact H. Qed.

Lemma user_input_iteration_run (po : call_result) (inp : input_result)
  (g : globals) :
  user_input_iteration po inp g =
  match inp with
  | InputRaises e =>
      mkRun (Returned false) (set_disconnect_called true g)
        (exit_lines (MsgInputException e))
  | InputLine s =>
      if String.eqb s "exit" || String.eqb s "quit"
      then mkRun (Returned false) (set_disconnect_called true g)
             (exit_lines MsgUserHasQuit)
      else mkRun (Returned true)
             (post (change_shadow_value po (PStr s) g))
             (emitted (change_shadow_value po (PStr s) g))
  end.
Proof.
  unfold user_input_iteration. destruct inp as [s | e]; [| reflexivity].
  unfold_monad. cbn -[change_shadow_value].
  destruct (String.eqb s "exit" || String.eqb s "quit"); [reflexivity |].
  rewrite change_shadow_value_run.
  destruct (py_eq (shadow_value g) (PStr s)); cbn [post emitted];
    rewrite app_nil_r; reflexivity.
Qed.

(** The change path, with some quiet actions before it. *)
Lemma change_path_handled (po : call_result) (v : pyval) (g : globals)
  (pre : list effect) :
  v <> PNone -> forallb quiet pre = true ->
  handled g (post (change_shadow_value po v g))
    (pre ++ emitted (change_shadow_value po v g)).
Proof.
  intros Hv Hpre. rewrite change_shadow_value_run.
  destruct (py_eq (shadow_value g) v) eqn:E; cbn [post emitted].
  - apply HQuiet. rewrite forallb_app, Hpre. reflexivity.
  - now apply HChanged.
Qed.

Lemma exit_handled (m : exit_msg) (g : globals) :
  handled g (set_disconnect_called true g) (exit_lines m).
Proof. exact (HExit g m [] eq_refl). Qed.

Lemma handle_handled (ev : event) (g : globals) :
  handled g (post (handle ev g)) (emitted (handle ev g)).
Proof.
  destruct ev as [c s | c | po r | po e | po d | fr | r | e | po inp | msg];
    cbn [handle].
  - unfold on_connected. unfold_monad. simpl.
    destruct (connected_future g); try now apply HQuiet.
    destruct (c =? 0)%Z; now apply HConnected.
  - unfold on_disconnected. unfold_monad. simpl.
    destruct (disconnect_called g) eqn:E; simpl.
    + now apply HDone.
    + now apply HQuiet.
  - destruct (is_none (shadow_value g)) eqn:Hg.
    + rewrite on_get_accepted_run by exact Hg. cbv zeta.
      assert (Hdefault :
        handled g
          (post (prepend (query_head ++ [EPrint (LShadowLacksProperty (shadow_property g))])
                   (change_shadow_value po SHADOW_VALUE_DEFAULT g)))
          (emitted (prepend (query_head ++ [EPrint (LShadowLacksProperty (shadow_property g))])
                      (change_shadow_value po SHADOW_VALUE_DEFAULT g)))).
      { apply change_path_handled; [apply default_not_none | reflexivity]. }
      destruct (gsr_state r) as [st|]; [| exact Hdefault].
      destruct (offered (sd_delta st) (shadow_property g)) as [v|] eqn:Hd.
      * apply change_path_handled; [| reflexivity].
        apply is_none_false, truthy_not_none.
        exact (proj1 (proj2 (proj2 (offered_some _ _ _ Hd)))).
      * destruct (offered (sd_reported st) (shadow_property g)) as [v|] eqn:Hr;
          [| exact Hdefault].
        apply (HAdopted g v
                 (query_head ++ [EPrint (LShadowContainsReported v); EAcquire])
                 [ERelease; EPrint LEnterDesiredValue]);
          try reflexivity.
        -- apply is_none_false, truthy_not_none.
           exact (proj1 (proj2 (proj2 (offered_some _ _ _ Hr)))).
        -- now destruct (shadow_value g).
    + rewrite on_get_accepted_ignored by exact Hg. now apply HQuiet.
  - rewrite on_get_rejected_run. destruct (err_code e =? 404)%Z.
    + apply change_path_handled; [apply default_not_none | reflexivity].
    + apply exit_handled.
  - rewrite on_delta_event_run. cbv zeta.
    destruct (mentioned d (shadow_property g)) as [v|].
    + apply change_path_handled; [apply adopted_not_none |].
      now destruct (is_none v).
    + now apply HQuiet.
  - destruct fr as [| x].
    + now apply HQuiet.
    + apply exit_handled.
  - unfold on_update_accepted, subscript. unfold_monad. simpl.
    destruct (usr_state r) as [[[rep|] des]|]; simpl; try now apply HQuiet.
    destruct (rep !! shadow_property g); now apply HQuiet.
  - apply exit_handled.
  - assert (Hpost : forall (m : M bool),
              post (bind m (fun _ => ret tt) g) = post (m g)
              /\ emitted (bind m (fun _ => ret tt) g) = emitted (m g)).
    { intros m. unfold bind, ret.
      destruct (m g) as [[a | x] g1 out]; simpl; [| auto].
      now rewrite app_nil_r. }
    destruct (Hpost (user_input_iteration po inp)) as [-> ->].
    rewrite user_input_iteration_run. destruct inp as [s | x].
    + destruct (String.eqb s "exit" || String.eqb s "quit").
      * apply exit_handled.
      * apply (change_path_handled po (PStr s) g []); [discriminate | reflexivity].
    + apply exit_handled.
  - apply exit_handled.
Qed.

Lemma quiet_published (out : list effect) :
  forallb quiet out = true -> published out = [].
Proof.
  induction out as [| e out IH]; simpl; [reflexivity |].
  intros H. apply andb_prop in H as [He Ho].
  destruct e; try discriminate; simpl; exact (IH Ho).
Qed.

Lemma quiet_disconnects (out : list effect) :
  forallb quiet out = true -> disconnect_requests out = 0.
Proof.
  unfold disconnect_requests.
  induction out as [| e out IH]; simpl; [reflexivity |].
  intros H. apply andb_prop in H as [He Ho].
  destruct e; try discriminate; simpl; exact (IH Ho).
Qed.

Lemma published_app (a b : list effect) :
  published (a ++ b) = published a ++ published b.
Proof. apply filter_app. Qed.

Lemma disconnect_requests_app (a b : list effect) :
  disconnect_requests (a ++ b) = disconnect_requests a + disconnect_requests b.
Proof. unfold disconnect_requests. now rewrite filter_app, length_app. Qed.

Lemma handled_configuration (g g' : globals) (out : list effect) :
  handled g g' out -> same_configuration g g'.
Proof.
  intros H. destruct H as [| | | | po | ]; try (split; reflexivity).
  destruct po; split; reflexivity.
Qed.

(** The two shutdown flags only go up; the done flag needs the disconnect
    flag, and the disconnect flag is only set together with a disconnect
    request. *)
Lemma handled_flags (g g' : globals) (out : list effect) :
  handled g g' out ->
  implb (disconnect_called g) (disconnect_called g') = true
  /\ implb (is_sample_done g) (is_sample_done g') = true
  /\ (is_sample_done g' = true ->
      is_sample_done g = true \/ disconnect_called g = true)
  /\ (disconnect_called g' = true ->
      disconnect_called g = true \/ 1 <= disconnect_requests out)
  /\ (1 <= disconnect_requests out -> disconnect_called g' = true).
Proof.
  assert (Hi : forall b, implb b b = true) by now intros [].
  assert (Ht : forall b, implb b true = true) by now intros [].
  intros H. destruct H as [out Hq | f out Hq | out Hc Hq | v pre suf Hv Hg Hp Hs
                          | po v pre Hv He Hp | m pre Hp]; simpl.
  - rewrite (quiet_disconnects _ Hq). repeat split; auto; lia.
  - rewrite (quiet_disconnects _ Hq). repeat split; auto; lia.
  - rewrite (quiet_disconnects _ Hq). repeat split; auto; lia.
  - rewrite disconnect_requests_app, (quiet_disconnects _ Hp).
    change (EStore v :: suf) with ([EStore v] ++ suf).
    rewrite disconnect_requests_app, (quiet_disconnects _ Hs).
    repeat split; auto; simpl; lia.
  - rewrite !disconnect_requests_app, (quiet_disconnects _ Hp).
    destruct po as [| x]; simpl; repeat split; auto; try lia.
    unfold disconnect_requests. simpl. intros H. lia.
  - rewrite disconnect_requests_app, (quiet_disconnects _ Hp).
    repeat split; auto.
Qed.

(** One operation publishes at most one update, for the configured thing
    and property, with a value that is not [None]; it requests at most one
    disconnect. *)
Lemma handled_published (g g' : globals) (out : list effect) :
  handled g g' out ->
  (published out = []
   \/ exists v, v <> PNone /\ published out = [request_for g v])
  /\ disconnect_requests out <= 1.
Proof.
  intros H. destruct H as [out Hq | f out Hq | out Hc Hq | v pre suf Hv Hg Hp Hs
                          | po v pre Hv He Hp | m pre Hp].
  - rewrite (quiet_published _ Hq), (quiet_disconnects _ Hq). split; [auto | lia].
  - rewrite (quiet_published _ Hq), (quiet_disconnects _ Hq). split; [auto | lia].
  - rewrite (quiet_published _ Hq), (quiet_disconnects _ Hq). split; [auto | lia].
  - change (EStore v :: suf) with ([EStore v] ++ suf).
    rewrite !published_app, !disconnect_requests_app,
      (quiet_published _ Hp), (quiet_published _ Hs),
      (quiet_disconnects _ Hp), (quiet_disconnects _ Hs).
    split; [left; reflexivity | simpl; lia].
  - rewrite published_app, disconnect_requests_app,
      (quiet_published _ Hp), (quiet_disconnects _ Hp).
    split.
    + right. exists v. split; [exact Hv |].
      unfold published. simpl app. apply filter_publish_lines.
    + destruct po; unfold disconnect_requests; simpl; lia.
  - rewrite published_app, disconnect_requests_app,
      (quiet_published _ Hp), (quiet_disconnects _ Hp).
    split; [left; reflexivity | unfold disconnect_requests; simpl; lia].
Qed.

Lemma request_for_configuration (g g' : globals) (v : pyval) :
  same_configuration g g' -> request_for g' v = request_for g v.
Proof. intros [Ht Hp]. unfold request_for. now rewrite Ht, Hp. Qed.

(** X2. Whatever the sequence of operations, every update request handed to
    the client names the thing and the property the sample was started
    with, sets the reported and the desired field to the same single value,
    and that value is never [None]: the sample never publishes a request
    that would delete the property. *)
Theorem published_requests_well_formed
  (evs : list event) (g : globals) (e : effect) :
  In e (published (snd (run_events evs g))) ->
  exists v, v <> PNone
            /\ e = EPublishUpdate
                     {| req_thing_name := thing_name g;
                        req_state :=
                          {| ss_reported := Some {[ shadow_property g := v ]};
                             ss_desired := Some {[ shadow_property g := v ]} |}
                     |}.
Proof.
  revert g. induction evs as [| ev evs IH]; intros g H; [destruct H |].
  rewrite run_events_cons in H. cbn [snd] in H.
  rewrite published_app in H. apply in_app_or in H as [H | H].
  - destruct (handled_published _ _ _ (handle_handled ev g)) as [[Hn | Hv] _].
    + rewrite Hn in H. destruct H.
    + destruct Hv as (v & Hv & Hp). rewrite Hp in H.
      destruct H as [<- | []]. exists v. split; [exact Hv | reflexivity].
  - destruct (IH _ H) as (v & Hv & ->). exists v. split; [exact Hv |].
    destruct (handled_configuration _ _ _ (handle_handled ev g)) as [-> ->].
    reflexivity.
Qed.

Lemma published_requests_well_formed_witness :
  exists v, v <> PNone
            /\ request_for (initial_globals "lamp" "color") (PStr "off")
               = request_for (initial_globals "lamp" "color") v.
Proof.
  destruct (published_requests_well_formed
              [EvGetAccepted CallReturns empty_delta_response;
               EvDelta CallReturns (delta_of "color" PNone)]
              (initial_globals "lamp" "color")
              (request_for (initial_globals "lamp" "color") (PStr "off")))
    as (v & Hv & He).
  - vm_compute. left. reflexivity.
  - exists v. split; [exact Hv | exact He].
Defined.

(** ** The shutdown flags *)

Lemma implb_true_iff (a b : bool) : implb a b = true <-> (a = true -> b = true).
Proof. destruct a, b; simpl; split; auto; intros H; discriminate (H eq_refl). Qed.

Lemma run_events_flags (evs : list event) (g : globals) :
  let g' := fst (run_events evs g) in
  let out := snd (run_events evs g) in
  implb (disconnect_called g) (disconnect_called g') = true
  /\ implb (is_sample_done g) (is_sample_done g') = true
  /\ (is_sample_done g' = true ->
      is_sample_done g = true \/ disconnect_called g' = true)
  /\ (disconnect_called g' = true ->
      disconnect_called g = true \/ 1 <= disconnect_requests out).
Proof.
  revert g. induction evs as [| ev evs IH]; intros g; cbv zeta.
  - simpl. rewrite !implb_true_iff. auto.
  - rewrite run_events_cons. cbn [fst snd].
    destruct (handled_flags _ _ _ (handle_handled ev g))
      as (H1 & H2 & H3 & H4 & _).
    destruct (IH (post (handle ev g))) as (I1 & I2 & I3 & I4).
    rewrite implb_true_iff in H1, H2, I1, I2.
    rewrite disconnect_requests_app.
    repeat split.
    + apply implb_true_iff. auto.
    + apply implb_true_iff. auto.
    + intros H. destruct (I3 H) as [Hd | Hc]; [| auto].
      destruct (H3 Hd) as [Hd' | Hc']; auto.
    + intros H. destruct (I4 H) as [Hc | Hn]; [| right; lia].
      destruct (H4 Hc) as [Hc' | Hn']; [auto | right; lia].
Qed.

(** X3. Once [disconnect_called] or [is_sample_done] is set, no sequence of
    operations clears it again. *)
Theorem shutdown_flags_never_reset (evs : list event) (g : globals) :
  implb (disconnect_called g) (disconnect_called (fst (run_events evs g)))
  = true
  /\ implb (is_sample_done g) (is_sample_done (fst (run_events evs g)))
     = true.
Proof.
  destruct (run_events_flags evs g) as (H1 & H2 & _). split; assumption.
Qed.

Lemma exit_entered_app (a b : list effect) :
  exit_entered (a ++ b) = exit_entered a || exit_entered b.
Proof. apply existsb_app. Qed.

Lemma exit_lines_entered (m : exit_msg) : exit_entered (exit_lines m) = true.
Proof. reflexivity. Qed.

(** [disconnect_called] goes up only in an operation that has printed the
    opening line of the shutdown routine. *)
Lemma handled_exit_entered (g g' : globals) (out : list effect) :
  handled g g' out ->
  disconnect_called g' = true ->
  disconnect_called g = true \/ exit_entered out = true.
Proof.
  intros H. destruct H as [out Hq | f out Hq | out Hc Hq | v pre suf Hv Hg Hp Hs
                          | po v pre Hv He Hp | m pre Hp]; simpl; auto.
  - destruct po as [| e]; simpl; [auto |]. intros _. right.
    rewrite exit_entered_app. apply orb_true_iff. right. reflexivity.
  - intros _. right.
    rewrite exit_entered_app. apply orb_true_iff. right. reflexivity.
Qed.

Lemma run_events_exit_entered (evs : list event) (g : globals) :
  disconnect_called (fst (run_events evs g)) = true ->
  disconnect_called g = true \/ exit_entered (snd (run_events evs g)) = true.
Proof.
  revert g. induction evs as [| ev evs IH]; intros g; [simpl; auto |].
  rewrite run_events_cons. cbn [fst snd]. intros H.
  rewrite exit_entered_app.
  destruct (IH _ H) as [Hc | He]; [| right; rewrite He; apply orb_true_r].
  destruct (handled_exit_entered _ _ _ (handle_handled ev g) Hc) as [Hg | He];
    [left; exact Hg | right; now rewrite He].
Qed.

(** X4. Started from the initial globals, the sample signals that it is
    done only after the shutdown routine has been entered: whenever
    [is_sample_done] is set, [disconnect_called] is set as well, and the
    opening line of the shutdown routine (line 70, which [exit] prints
    before it sets the flag) has been printed. *)
Theorem sample_done_only_after_exit
  (evs : list event) (thing prop : string) :
  is_sample_done (fst (run_events evs (initial_globals thing prop))) = true ->
  disconnect_called (fst (run_events evs (initial_globals thing prop))) = true
  /\ exit_entered (snd (run_events evs (initial_globals thing prop))) = true.
Proof.
  intros H.
  destruct (run_events_flags evs (initial_globals thing prop))
    as (_ & _ & H3 & _).
  destruct (H3 H) as [Hd | Hc]; [discriminate Hd |].
  split; [exact Hc |].
  destruct (run_events_exit_entered _ _ Hc) as [Hc' | He];
    [discriminate Hc' | exact He].
Qed.

Lemma sample_done_only_after_exit_witness :
  exit_entered
    (snd (run_events
            [EvUserInput CallReturns (InputLine "quit"); EvDisconnected 0]
            (initial_globals "lamp" "color"))) = true.
Proof.
  apply (sample_done_only_after_exit
           [EvUserInput CallReturns (InputLine "quit"); EvDisconnected 0]
           "lamp" "color").
  reflexivity.
Defined.

(** X5. What a disconnect notice does depends on whether the shutdown
    routine has run.  After the shutdown routine, [on_disconnected]
    declines to reconnect and signals that the sample is done.  As long as
    the shutdown routine has not been entered since the start (its opening
    line has not been printed), [on_disconnected] asks the connection to
    reconnect, changes no global, and the sample is not done. *)
Theorem on_disconnected_policy
  (evs : list event) (thing prop : string) (code : Z)
  (msg : exit_msg) (g : globals) :
  exit_entered (snd (run_events evs (initial_globals thing prop))) = false ->
  let g' := fst (run_events evs (initial_globals thing prop)) in
  on_disconnected code g'
  = mkRun (Returned true) g' [EPrint (LDisconnected code)]
  /\ is_sample_done g' = false
  /\ disconnect_called g' = false
  /\ on_disconnected code (post (exit msg g))
     = mkRun (Returned false)
         (set_is_sample_done true (set_disconnect_called true g))
         [EPrint (LDisconnected code)].
Proof.
  intros Hn g'.
  destruct (run_events_flags evs (initial_globals thing prop))
    as (_ & _ & H3 & _). fold g' in H3.
  assert (Hc : disconnect_called g' = false).
  { destruct (disconnect_called g') eqn:E; [| reflexivity].
    destruct (run_events_exit_entered _ _ E) as [Hc | Hc];
      [discriminate Hc | congruence]. }
  split; [| split; [| split]].
  - unfold on_disconnected. unfold_monad. simpl. rewrite Hc. reflexivity.
  - destruct (is_sample_done g') eqn:E; [| reflexivity].
    destruct (H3 eq_refl) as [Hd | Hd]; [discriminate Hd | congruence].
  - exact Hc.
  - reflexivity.
Qed.

Lemma on_disconnected_policy_witness :
  let g' := fst (run_events [EvDelta CallReturns (delta_of "color" (PStr "red"))]
                   (initial_globals "lamp" "color")) in
  on_disconnected 5 g' = mkRun (Returned true) g' [EPrint (LDisconnected 5)].
Proof.
  intros g'.
  apply (on_disconnected_policy
           [EvDelta CallReturns (delta_of "color" (PStr "red"))]
           "lamp" "color" 5 MsgUserHasQuit (initial_globals "lamp" "color")).
  reflexivity.
Defined.

(** ** The input thread *)

(** X6. One turn of the input loop never raises.  It ends the loop exactly
    when the line is [exit] or [quit] or reading the line raised; then the
    shutdown routine runs once, the stored value is untouched and nothing
    is published.  Every other line, the empty line included, is a value:
    the turn does what the change path does with it, and the loop goes on
    even when the publish raised and the change path has already requested
    the shutdown. *)
Theorem user_input_iteration_cases
  (po : call_result) (inp : input_result) (g : globals) :
  let r := user_input_iteration po inp g in
  res r = Returned (negb (input_stops inp))
  /\ if input_stops inp
     then post r = set_disconnect_called true g
          /\ published (emitted r) = []
          /\ disconnect_requests (emitted r) = 1
     else exists s,
            inp = InputLine s
            /\ post r = post (change_shadow_value po (PStr s) g)
            /\ emitted r = emitted (change_shadow_value po (PStr s) g)
            /\ py_eq (shadow_value (post r)) (PStr s) = true.
Proof.
  intros r. unfold r. rewrite user_input_iteration_run.
  destruct inp as [s | e]; simpl input_stops.
  - destruct (String.eqb s "exit" || String.eqb s "quit").
    + repeat split.
    + split; [reflexivity |]. exists s. repeat split.
      cbn [post]. rewrite change_shadow_value_value.
      destruct (py_eq (shadow_value g) (PStr s)) eqn:E;
        [exact E | apply py_eq_refl].
  - repeat split.
Qed.

(** ** Responses to updates *)

(** X7. [on_update_accepted] changes no global and makes no call.  It
    returns normally, after two console lines, exactly when the response
    has a reported section that holds the property; otherwise (no state,
    no reported section, or the property missing from it, as in a response
    to an update of other properties) the lookup raises, nothing is
    printed, and nothing in the sample catches the exception. *)
Theorem on_update_accepted_cases
  (response : UpdateShadowResponse) (g : globals) :
  let r := on_update_accepted response g in
  post r = g
  /\ match accepted_value response (shadow_property g) with
     | Some v =>
         res r = Returned tt
         /\ emitted r = [EPrint (LFinishedUpdating v); EPrint LEnterDesiredValue]
     | None =>
         emitted r = []
         /\ exists e, res r = Raised e
                      /\ e = match usr_state response with
                             | None => AttributeError "reported"
                             | Some st =>
                                 match ss_reported st with
                                 | None =>
                                     TypeError
                                       "'NoneType' object is not subscriptable"
                                 | Some _ => KeyError (shadow_property g)
                                 end
                             end
     end.
Proof.
  unfold on_update_accepted, accepted_value, carries, subscript.
  unfold_monad. simpl.
  destruct (usr_state response) as [[[rep|] des]|]; simpl; eauto.
  destruct (rep !! shadow_property g); simpl; eauto.
Qed.

(** X8. Taking it that [mqtt_connection.disconnect()] in the shutdown
    routine returns, an exception escapes from a callback in two cases
    only: from [on_update_accepted] when the response has no reported value
    for the property, and from [on_connected] when [connected_future] has
    already been completed.  Every other callback, and a turn of the input
    loop, returns normally whether [publish_update] and [future.result()]
    return or raise: such a failure is turned into a call of the shutdown
    routine. *)
Theorem callbacks_never_raise (ev : event) (g : globals) :
  match ev with
  | EvUpdateAccepted r =>
      match accepted_value r (shadow_property g) with
      | Some _ => res (handle ev g) = Returned tt
      | None => exists e, res (handle ev g) = Raised e
      end
  | EvConnected _ _ =>
      res (handle ev g)
      = match connected_future g with
        | FutPending => Returned tt
        | _ => Raised InvalidStateError
        end
  | _ => res (handle ev g) = Returned tt
  end.
Proof.
  destruct ev as [c s | c | po r | po e | po d | fr | r | e | po inp | msg];
    cbn [handle].
  - unfold on_connected. unfold_monad. simpl.
    destruct (connected_future g); try reflexivity. now destruct (c =? 0)%Z.
  - unfold on_disconnected. unfold_monad. simpl.
    now destruct (disconnect_called g).
  - destruct (is_none (shadow_value g)) eqn:Hg.
    + rewrite on_get_accepted_run by exact Hg. cbv zeta. unfold prepend.
      destruct (gsr_state r) as [st|].
      * destruct (offered (sd_delta st) (shadow_property g)) as [v|].
        -- rewrite change_shadow_value_run.
           now destruct (py_eq (shadow_value g) v).
        -- destruct (offered (sd_reported st) (shadow_property g));
             [reflexivity |].
           rewrite change_shadow_value_run.
           now destruct (py_eq (shadow_value g) SHADOW_VALUE_DEFAULT).
      * rewrite change_shadow_value_run.
        now destruct (py_eq (shadow_value g) SHADOW_VALUE_DEFAULT).
    + now rewrite on_get_accepted_ignored.
  - rewrite on_get_rejected_run. unfold prepend.
    destruct (err_code e =? 404)%Z; [| reflexivity].
    rewrite change_shadow_value_run.
    now destruct (py_eq (shadow_value g) SHADOW_VALUE_DEFAULT).
  - rewrite on_delta_event_run. cbv zeta. unfold prepend.
    destruct (mentioned d (shadow_property g)) as [v|]; [| reflexivity].
    rewrite change_shadow_value_run.
    now destruct (py_eq (shadow_value g) (adopted_from_delta v)).
  - now destruct fr.
  - unfold on_update_accepted, accepted_value, carries, subscript.
    unfold_monad. simpl.
    destruct (usr_state r) as [[[rep|] des]|]; simpl; eauto.
    destruct (rep !! shadow_property g); simpl; eauto.
  - reflexivity.
  - unfold bind. rewrite user_input_iteration_run.
    destruct inp as [s | x]; [| reflexivity].
    now destruct (String.eqb s "exit" || String.eqb s "quit").
  - reflexivity.
Qed.

(** ** More on the initial query and on delta events *)

Lemma on_get_accepted_sets_value
  (po : call_result) (response : GetShadowResponse) (g : globals) :
  is_none (shadow_value (post (on_get_accepted po response g))) = false.
Proof.
  apply not_none_is_none.
  destruct (is_none (shadow_value g)) eqn:Hg.
  - rewrite on_get_accepted_run by exact Hg. cbv zeta.
    assert (Hd : forall pre,
              shadow_value
                (post (prepend pre (change_shadow_value po SHADOW_VALUE_DEFAULT g)))
              <> PNone).
    { intros pre. cbn [prepend post]. rewrite change_shadow_value_value.
      destruct (py_eq (shadow_value g) SHADOW_VALUE_DEFAULT) eqn:E;
        [| discriminate].
      rewrite (py_eq_default _ E). discriminate. }
    destruct (gsr_state response) as [st|]; [| apply Hd].
    destruct (offered (sd_delta st) (shadow_property g)) as [v|] eqn:Hv.
    + pose proof (truthy_not_none v
                    (proj1 (proj2 (proj2 (offered_some _ _ _ Hv))))) as Hn.
      cbn [prepend post]. rewrite change_shadow_value_value.
      destruct (shadow_value g); try discriminate.
      rewrite py_eq_none_l, Hn. now apply is_none_false.
    + destruct (offered (sd_reported st) (shadow_property g)) as [v|] eqn:Hr;
        [| apply Hd].
      cbn [post shadow_value set_shadow_value].
      apply is_none_false, truthy_not_none.
      exact (proj1 (proj2 (proj2 (offered_some _ _ _ Hr)))).
  - rewrite on_get_accepted_ignored by exact Hg. cbn [post].
    now apply is_none_false.
Qed.

(** X9. After a successful initial query has been handled, in whatever
    state and with whatever snapshot and publish result, the store holds a
    value; so a second successful initial query, whatever it carries, is
    ignored: it changes no global and only writes the two console lines
    around the lock. *)
Theorem initial_query_handled_once
  (po po2 : call_result) (response response2 : GetShadowResponse)
  (g : globals) :
  let g1 := post (on_get_accepted po response g) in
  shadow_value g1 <> PNone
  /\ on_get_accepted po2 response2 g1 = mkRun (Returned tt) g1 ignored_lines.
Proof.
  intros g1. pose proof (on_get_accepted_sets_value po response g) as H.
  fold g1 in H. split.
  - now apply is_none_false.
  - now apply on_get_accepted_ignored.
Qed.

(** X10. A delta event that says nothing about the property (no state, an
    empty state, or a state without the property) is a no-op: it changes no
    global and only writes two console lines. *)
Theorem delta_without_property_is_noop
  (po : call_result) (delta : ShadowDeltaEvent) (g : globals) :
  mentioned delta (shadow_property g) = None ->
  on_delta_event po delta g
  = mkRun (Returned tt) g
      [EPrint LReceivedDelta; EPrint (LDeltaNoChange (shadow_property g))].
Proof.
  intros H. rewrite on_delta_event_run. cbv zeta. now rewrite H.
Qed.

Lemma delta_without_property_is_noop_witness :
  post (on_delta_event CallReturns {| sde_state := Some ∅ |}
          (globals_with (PStr "blue"))) = globals_with (PStr "blue")
  /\ post (on_delta_event CallReturns {| sde_state := None |}
             (globals_with (PStr "blue"))) = globals_with (PStr "blue")
  /\ post (on_delta_event CallReturns (delta_of "size" (PInt 3))
             (globals_with (PStr "blue"))) = globals_with (PStr "blue").
Proof.
  split; [| split].
  - rewrite (delta_without_property_is_noop CallReturns {| sde_state := Some ∅ |}
               (globals_with (PStr "blue"))); reflexivity.
  - rewrite (delta_without_property_is_noop CallReturns {| sde_state := None |}
               (globals_with (PStr "blue"))); reflexivity.
  - rewrite (delta_without_property_is_noop CallReturns
               (delta_of "size" (PInt 3)) (globals_with (PStr "blue")));
      reflexivity.
Defined.

(** ** The change path when the publish fails *)


(** ** The calls of the main thread *)

Lemma startup_calls_app (a b : list effect) :
  startup_calls (a ++ b) = startup_calls a ++ startup_calls b.
Proof. apply filter_app. Qed.

Lemma callback_effects_no_startup_calls (l : list effect) :
  forallb callback_effect l = true -> startup_calls l = [].
Proof.
  induction l as [| e l IH]; simpl; [reflexivity |].
  intros H. apply andb_prop in H as [He Hl].
  destruct e; try discriminate; simpl; exact (IH Hl).
Qed.

Lemma calls_of_firstn_prefix (n : nat) :
  calls_of (firstn n startup_body)
  = firstn (length (calls_of (firstn n startup_body))) full_startup_calls.
Proof.
  do 18 (destruct n as [| n]; [reflexivity |]).
  simpl firstn. rewrite firstn_nil. reflexivity.
Qed.

Lemma calls_of_step (n : nat) (i : instr) (rest : list instr) :
  i :: rest = skipn n startup_body ->
  calls_of (firstn (S n) startup_body)
  = calls_of (firstn n startup_body)
    ++ startup_calls (instr_effects i CallReturns).
Proof.
  intros H. destruct (skipn_step n i rest H) as [_ ->].
  unfold calls_of. rewrite flat_map_app. simpl. now rewrite app_nil_r.
Qed.

(** A call that raises was still made; a wait that raises did not
    return. *)
Lemma calls_raise_prefix (n : nat) (i : instr) (rest : list instr) (e : exn) :
  i :: rest = skipn n startup_body ->
  exists k,
    calls_of (firstn n startup_body)
    ++ startup_calls (instr_effects i (CallRaises e))
    = firstn k full_startup_calls.
Proof.
  intros H.
  do 18 (destruct n as [| n];
         [injection H as -> _;
          match goal with
          | |- exists k, ?l = _ => exists (length l); reflexivity
          end |]).
  exfalso. simpl in H. destruct n; discriminate H.
Qed.

Lemma calls_inv_init (thing prop : string) : calls_inv (sys_init thing prop).
Proof.
  split.
  - intros rest [= <-]. exists 0. split; reflexivity.
  - exists 0. reflexivity.
Qed.

Lemma main_step_calls_inv (r : call_result) (s s' : sys) :
  calls_inv s -> main_step r s = Some s' -> calls_inv s'.
Proof.
  intros (Ha & Hb) Hstep. unfold main_step in Hstep.
  destruct (sys_main s) as [[| i rest] | |] eqn:Hmain.
  - injection Hstep as <-. split; [discriminate | exact Hb].
  - destruct (Ha _ eq_refl) as (n & Hn & Hcalls).
    destruct r as [| e].
    + injection Hstep as <-.
      assert (Hnew : startup_calls (sys_out s ++ instr_effects i CallReturns)
                     = calls_of (firstn (S n) startup_body)).
      { rewrite startup_calls_app, Hcalls. symmetry.
        eapply calls_of_step, Hn. }
      split; cbn [sys_main sys_out].
      * intros rest' Hrest'. exists (S n).
        assert (rest' = rest) as ->.
        { destruct rest; [discriminate | now injection Hrest']. }
        split; [exact (proj1 (skipn_step n i rest Hn)) | exact Hnew].
      * rewrite Hnew. eexists. apply calls_of_firstn_prefix.
    + destruct (instr_may_raise i); [| discriminate].
      cbv zeta in Hstep. rewrite exit_run in Hstep. injection Hstep as <-.
      split; cbn [sys_main sys_out post emitted]; [discriminate |].
      rewrite !startup_calls_app, Hcalls,
        (callback_effects_no_startup_calls _ (exit_lines_callback _)),
        app_nil_r.
      eapply calls_raise_prefix, Hn.
  - destruct (is_sample_done (sys_globals s)); [| discriminate].
    injection Hstep as <-. split; [discriminate | exact Hb].
  - discriminate.
Qed.

Lemma callback_step_calls_inv (ev : event) (s s' : sys) :
  calls_inv s -> callback_step ev s = Some s' -> calls_inv s'.
Proof.
  intros (Ha & Hb) Hstep.
  destruct (callback_step_out ev s s' Hstep) as (_ & Hmain & _ & _ & Hout & _).
  assert (Hsame : startup_calls (sys_out s') = startup_calls (sys_out s)).
  { rewrite Hout, startup_calls_app,
      (callback_effects_no_startup_calls _ (handle_emits ev (sys_globals s))).
    apply app_nil_r. }
  split; rewrite Hsame; [| exact Hb].
  rewrite Hmain. exact Ha.
Qed.

Lemma sys_run_calls_inv (cs : list sched) (s s' : sys) :
  calls_inv s -> sys_run cs s = Some s' -> calls_inv s'.
Proof.
  revert s. induction cs as [| c cs IH]; intros s Hinv Hrun.
  - injection Hrun as <-. exact Hinv.
  - simpl in Hrun. destruct (sys_step c s) as [s1 |] eqn:Hstep; [| discriminate].
    apply (IH s1); [| exact Hrun].
    destruct c as [r | ev]; simpl in Hstep.
    + eapply main_step_calls_inv; eassumption.
    + eapply callback_step_calls_inv; eassumption.
Qed.

(** X12. In every execution from line 267 on, whatever callbacks run in
    between and whichever call raises, the subscribe calls, the waits that
    returned, the get request and the start of the input thread form a
    beginning of the one sequence the startup is written in: each topic is
    subscribed at most once and in the written order, the get request is
    published at most once, and no callback ever subscribes or publishes
    the get request. *)
Theorem startup_calls_form_prefix
  (cs : list sched) (thing prop : string) (s : sys) :
  sys_run cs (sys_init thing prop) = Some s ->
  exists k, startup_calls (sys_out s) = firstn k full_startup_calls.
Proof.
  intros Hrun.
  exact (proj2 (sys_run_calls_inv cs _ s (calls_inv_init thing prop) Hrun)).
Qed.

Lemma startup_calls_form_prefix_witness :
  exists s k, sys_run delta_race (sys_init "lamp" "color") = Some s
              /\ startup_calls (sys_out s) = firstn k full_startup_calls.
Proof.
  assert (H : exists s, sys_run delta_race (sys_init "lamp" "color") = Some s).
  { eexists. vm_compute. reflexivity. }
  destruct H as [s Hs].
  destruct (startup_calls_form_prefix delta_race "lamp" "color" s Hs) as [k Hk].
  exists s, k. split; assumption.
Defined.

(** ** Shutdown of the whole program *)

Lemma existsb_forallb_negb {A} (f : A -> bool) (l : list A) :
  forallb (fun x => negb (f x)) l = true -> existsb f l = false.
Proof.
  induction l as [| x l IH]; simpl; [reflexivity |].
  intros H. apply andb_prop in H as [Hx Hl].
  rewrite (IH Hl). now destruct (f x).
Qed.

Lemma exit_no_startup_failure (msg : exit_msg) :
  (forall e, msg <> MsgStartup e) ->
  emits_only (fun e => negb (is_startup_failure e)) (exit msg).
Proof.
  intros H g. rewrite exit_run. simpl.
  destruct msg; try reflexivity. now destruct (H e).
Qed.

Ltac failure_step :=
  first [ apply exit_no_startup_failure; discriminate | emits_step ].

Lemma change_shadow_value_no_startup_failure (po : call_result) (v : pyval) :
  emits_only (fun e => negb (is_startup_failure e)) (change_shadow_value po v).
Proof.
  unfold change_shadow_value, compare_and_set, publish_reported,
    publish_update, with_lock, store_shadow_value.
  repeat failure_step.
Qed.

Lemma handle_no_startup_failure (ev : event) (g : globals) :
  (forall msg, ev <> EvExit msg) ->
  startup_failed (emitted (handle ev g)) = false.
Proof.
  intros Hev. apply existsb_forallb_negb. revert g.
  change (emits_only (fun e => negb (is_startup_failure e)) (handle ev)).
  destruct ev; cbn [handle]; try (now destruct (Hev msg));
    unfold on_connected, on_disconnected, on_get_accepted, on_get_rejected,
      on_delta_event, on_publish_update, on_update_accepted,
      on_update_rejected, user_input_iteration,
      set_local_value_due_to_initial_query, with_lock, store_shadow_value,
      subscript;
    repeat first [ apply change_shadow_value_no_startup_failure
                 | failure_step ].
Qed.

Lemma callback_effects_no_start (l : list effect) :
  forallb callback_effect l = true -> input_thread_started l = false.
Proof.
  induction l as [| e l IH]; simpl; [reflexivity |].
  intros H. apply andb_prop in H as [He Hl].
  rewrite (IH Hl). destruct e; try discriminate; reflexivity.
Qed.

Lemma skipn_in (n : nat) (i : instr) (rest : list instr) :
  i :: rest = skipn n startup_body -> In i startup_body.
Proof.
  intros H. rewrite <- (firstn_skipn n startup_body), <- H.
  apply in_or_app. right. left. reflexivity.
Qed.

Lemma body_no_startup_failure (i : instr) (r : call_result) :
  In i startup_body -> startup_failed (instr_effects i r) = false.
Proof.
  intros H. simpl in H.
  repeat (destruct H as [<- | H]; [now destruct r |]). destruct H.
Qed.

Lemma instr_starts_thread (i : instr) (r : call_result) :
  input_thread_started (instr_effects i r) = starts_input_thread i.
Proof. destruct i, r; reflexivity. Qed.

(** The start of the input thread is the last statement of the [try]. *)
Lemma start_input_is_last (n : nat) (rest : list instr) :
  IStartInputThread :: rest = skipn n startup_body -> rest = [].
Proof.
  intros H. pose proof (start_input_position n rest H) as ->.
  now injection H as ->.
Qed.

Lemma after_try_not_exited (rest : list instr) : after_try rest <> MainExited.
Proof. destruct rest; discriminate. Qed.

Lemma after_try_rest (rest rest' : list instr) :
  after_try rest = MainTry rest' -> rest' = rest /\ rest <> [].
Proof. destruct rest; [discriminate |]. intros [= <-]. split; [reflexivity | discriminate]. Qed.

Lemma shutdown_inv_init (thing prop : string) :
  shutdown_inv (sys_init thing prop).
Proof.
  unfold shutdown_inv. cbv zeta. simpl.
  split; [discriminate |]. split; [discriminate |]. split; [discriminate |].
  split; [| discriminate].
  intros rest [= <-]. split; [exists 0; reflexivity |].
  split; [discriminate |]. repeat split.
Qed.

Lemma startup_failed_app (a b : list effect) :
  startup_failed (a ++ b) = startup_failed a || startup_failed b.
Proof. apply existsb_app. Qed.

Lemma input_thread_started_app (a b : list effect) :
  input_thread_started (a ++ b)
  = input_thread_started a || input_thread_started b.
Proof. apply existsb_app. Qed.

Lemma main_step_shutdown_inv (r : call_result) (s s' : sys) :
  shutdown_inv s -> main_step r s = Some s' -> shutdown_inv s'.
Proof.
  intros (H1 & H2 & H3 & H4 & H5) Hstep. unfold main_step in Hstep.
  destruct (sys_main s) as [[| i rest] | |] eqn:Hmain.
  - destruct (H4 _ eq_refl) as (_ & Hne & _). now destruct Hne.
  - destruct (H4 _ eq_refl) as ((n & Hn) & _ & Hfail & Hrun & Hstart).
    pose proof (body_no_startup_failure i r (skipn_in n i rest Hn)) as Hbody.
    destruct r as [| e].
    + injection Hstep as <-. unfold shutdown_inv. cbv zeta.
      cbn [sys_globals sys_main sys_out sys_input_running].
      rewrite disconnect_requests_app, startup_failed_app,
        input_thread_started_app, Hfail, Hbody, Hrun, Hstart,
        instr_starts_thread.
      split; [exact H1 |]. split; [intros H; specialize (H2 H); lia |].
      split; [intros H; now destruct (after_try_not_exited rest) |].
      split; [| discriminate].
      intros rest' Hrest'. apply after_try_rest in Hrest' as [-> Hne].
      split; [exists (S n); exact (proj1 (skipn_step n i rest Hn)) |].
      split; [exact Hne |].
      assert (Hi : starts_input_thread i = false).
      { destruct i; try reflexivity.
        now destruct Hne; apply (start_input_is_last n). }
      rewrite Hi. repeat split.
    + destruct (instr_may_raise i) eqn:Hraise; [| discriminate].
      cbv zeta in Hstep. rewrite exit_run in Hstep. injection Hstep as <-.
      unfold shutdown_inv. cbv zeta.
      cbn [sys_globals sys_main sys_out sys_input_running post emitted].
      rewrite !disconnect_requests_app, !input_thread_started_app,
        Hrun, Hstart, instr_starts_thread.
      assert (Hi : starts_input_thread i = false)
        by (destruct i; try reflexivity; discriminate Hraise).
      rewrite Hi.
      split; [reflexivity |].
      split; [intros _; unfold disconnect_requests at 3; simpl; lia |].
      split; [discriminate |]. split; [discriminate |].
      intros _. repeat split.
  - destruct (is_sample_done (sys_globals s)) eqn:Hdone; [| discriminate].
    injection Hstep as <-. unfold shutdown_inv. cbv zeta.
    cbn [sys_globals sys_main sys_out sys_input_running].
    split; [intros _; exact (H1 eq_refl) |]. split; [exact H2 |].
    split; [intros _; exact Hdone |].
    split; [discriminate |].
    intros H. destruct (H5 H) as (_ & Hs & Hc). repeat split; assumption.
  - discriminate.
Qed.

Lemma enabled_not_exit (ev : event) (s : sys) :
  enabled ev s = true -> forall msg, ev <> EvExit msg.
Proof. intros H msg ->. discriminate H. Qed.

Lemma callback_step_shutdown_inv (ev : event) (s s' : sys) :
  shutdown_inv s -> callback_step ev s = Some s' -> shutdown_inv s'.
Proof.
  intros (H1 & H2 & H3 & H4 & H5) Hstep.
  destruct (callback_step_out ev s s' Hstep)
    as (Hen & Hmain & Hlive & Hg & Hout & Hrun).
  destruct (handled_flags _ _ _ (handle_handled ev (sys_globals s)))
    as (F1 & F2 & F3 & F4 & _).
  rewrite implb_true_iff in F1.
  pose proof (handle_no_startup_failure ev (sys_globals s)
                (enabled_not_exit ev s Hen)) as Hnf.
  pose proof (callback_effects_no_start _ (handle_emits ev (sys_globals s)))
    as Hns.
  assert (Hrun' : sys_input_running s = false -> sys_input_running s' = false).
  { intros Hf. destruct (sys_input_running s') eqn:E; [| reflexivity].
    rewrite (Hrun eq_refl) in Hf. discriminate Hf. }
  unfold shutdown_inv. cbv zeta.
  rewrite Hg, Hout, Hmain, disconnect_requests_app, startup_failed_app,
    input_thread_started_app, Hnf, Hns, !orb_false_r.
  split; [| split; [| split; [| split]]].
  - intros H. destruct (F3 H) as [Hd | Hc]; auto.
  - intros H. destruct (F4 H) as [Hc | Hn]; [specialize (H2 Hc) |]; lia.
  - intros H. now destruct Hlive.
  - intros rest Hrest.
    destruct (H4 rest Hrest) as (Hn & Hne & Hfail & Hr & Hs).
    repeat split; auto.
  - intros H. destruct (H5 H) as (Hr & Hs & Hc). repeat split; auto.
Qed.

Lemma sys_run_shutdown_inv (cs : list sched) (s s' : sys) :
  shutdown_inv s -> sys_run cs s = Some s' -> shutdown_inv s'.
Proof.
  revert s. induction cs as [| c cs IH]; intros s Hinv Hrun.
  - injection Hrun as <-. exact Hinv.
  - simpl in Hrun. destruct (sys_step c s) as [s1 |] eqn:Hstep; [| discriminate].
    apply (IH s1); [| exact Hrun].
    destruct c as [r | ev]; simpl in Hstep.
    + eapply main_step_shutdown_inv; eassumption.
    + eapply callback_step_shutdown_inv; eassumption.
Qed.

(** X13. When the startup sequence fails (a subscribe call, a wait or the
    get request raises, and line 324 runs the shutdown routine with that
    exception), the input thread has not been started and never will be,
    so no user input is read; the disconnect flag is set, a disconnect has
    been requested, and the main thread has left the [try] for good. *)
Theorem startup_failure_stops_startup
  (cs : list sched) (thing prop : string) (s : sys) :
  sys_run cs (sys_init thing prop) = Some s ->
  startup_failed (sys_out s) = true ->
  sys_input_running s = false
  /\ input_thread_started (sys_out s) = false
  /\ disconnect_called (sys_globals s) = true
  /\ 1 <= disconnect_requests (sys_out s)
  /\ forall rest, sys_main s <> MainTry rest.
Proof.
  intros Hrun Hfail.
  destruct (sys_run_shutdown_inv cs _ s (shutdown_inv_init thing prop) Hrun)
    as (_ & H2 & _ & H4 & H5).
  destruct (H5 Hfail) as (Hr & Hs & Hc).
  repeat split; auto.
  intros rest Hrest. destruct (H4 rest Hrest) as (_ & _ & Hf & _).
  rewrite Hf in Hfail. discriminate Hfail.
Qed.

Lemma startup_failure_stops_startup_witness :
  exists s, sys_run failing_startup (sys_init "lamp" "color") = Some s
            /\ sys_input_running s = false
            /\ disconnect_called (sys_globals s) = true.
Proof.
  assert (H : exists s,
             sys_run failing_startup (sys_init "lamp" "color") = Some s
             /\ startup_failed (sys_out s) = true).
  { eexists. split; vm_compute; reflexivity. }
  destruct H as (s & Hs & Hf).
  destruct (startup_failure_stops_startup failing_startup "lamp" "color" s
              Hs Hf) as (Hr & _ & Hc & _).
  exists s. repeat split; assumption.
Defined.

Lemma exit_inv_init (thing prop : string) : exit_inv (sys_init thing prop).
Proof. intros H. discriminate H. Qed.

Lemma sys_step_exit_inv (c : sched) (s s' : sys) :
  exit_inv s -> sys_step c s = Some s' -> exit_inv s'.
Proof.
  unfold exit_inv. intros Hinv Hstep. destruct c as [r | ev]; simpl in Hstep.
  - unfold main_step in Hstep.
    destruct (sys_main s) as [[| i rest] | |].
    + injection Hstep as <-. exact Hinv.
    + destruct r as [| e].
      * injection Hstep as <-. cbn [sys_globals sys_out]. intros H.
        rewrite exit_entered_app, (Hinv H). reflexivity.
      * destruct (instr_may_raise i); [| discriminate].
        cbv zeta in Hstep. rewrite exit_run in Hstep. injection Hstep as <-.
        cbn [sys_globals sys_out post emitted]. intros _.
        rewrite !exit_entered_app, exit_lines_entered. now rewrite !orb_true_r.
    + destruct (is_sample_done (sys_globals s)); [| discriminate].
      injection Hstep as <-. exact Hinv.
    + discriminate.
  - destruct (callback_step_out ev s s' Hstep) as (_ & _ & _ & Hg & Hout & _).
    rewrite Hg, Hout, exit_entered_app. intros H.
    destruct (handled_exit_entered _ _ _
                (handle_handled ev (sys_globals s)) H) as [Hc | He].
    + now rewrite (Hinv Hc).
    + rewrite He. apply orb_true_r.
Qed.

Lemma sys_run_exit_inv (cs : list sched) (s s' : sys) :
  exit_inv s -> sys_run cs s = Some s' -> exit_inv s'.
Proof.
  revert s. induction cs as [| c cs IH]; intros s Hinv Hrun.
  - injection Hrun as <-. exact Hinv.
  - simpl in Hrun. destruct (sys_step c s) as [s1 |] eqn:Hstep; [| discriminate].
    apply (IH s1); [| exact Hrun]. eapply sys_step_exit_inv; eassumption.
Qed.

(** X14. The process ends only after the shutdown routine has been
    entered: in every execution from line 267 on, when the main thread has
    returned from waiting on [is_sample_done], that flag and
    [disconnect_called] are set and the opening line of the shutdown
    routine has been printed; and from then on nothing runs any more. *)
Theorem process_ends_only_after_shutdown
  (cs : list sched) (thing prop : string) (s : sys) :
  sys_run cs (sys_init thing prop) = Some s ->
  sys_main s = MainExited ->
  is_sample_done (sys_globals s) = true
  /\ disconnect_called (sys_globals s) = true
  /\ exit_entered (sys_out s) = true
  /\ forall c, sys_step c s = None.
Proof.
  intros Hrun Hexit.
  destruct (sys_run_shutdown_inv cs _ s (shutdown_inv_init thing prop) Hrun)
    as (H1 & _ & H3 & _).
  pose proof (sys_run_exit_inv cs _ s (exit_inv_init thing prop) Hrun) as He.
  pose proof (H3 Hexit) as Hd. pose proof (H1 Hd) as Hc.
  split; [exact Hd |]. split; [exact Hc |]. split; [exact (He Hc) |].
  intros [r | ev]; simpl.
  - unfold main_step. now rewrite Hexit.
  - unfold callback_step. now rewrite Hexit.
Qed.

Lemma process_ends_only_after_shutdown_witness :
  exists s, sys_run quit_run (sys_init "lamp" "color") = Some s
            /\ sys_main s = MainExited
            /\ exit_entered (sys_out s) = true.
Proof.
  assert (H : exists s,
             sys_run quit_run (sys_init "lamp" "color") = Some s
             /\ sys_main s = MainExited).
  { eexists. split; vm_compute; reflexivity. }
  destruct H as (s & Hs & He).
  destruct (process_ends_only_after_shutdown quit_run "lamp" "color" s Hs He)
    as (_ & _ & Hn & _).
  exists s. repeat split; assumption.
Defined.

(** ** The get request in the order of actions *)

Lemma sys_step_out (c : sched) (s s' : sys) :
  sys_step c s = Some s' -> exists new, sys_out s' = sys_out s ++ new.
Proof.
  destruct c as [r | ev]; simpl; intros H.
  - unfold main_step in H.
    destruct (sys_main s) as [[| i rest] | |].
    + injection H as <-. exists []. simpl. now rewrite app_nil_r.
    + destruct r as [| e].
      * injection H as <-. eexists. reflexivity.
      * destruct (instr_may_raise i); [| discriminate].
        injection H as <-. eexists. reflexivity.
    + destruct (is_sample_done (sys_globals s)); [| discriminate].
      injection H as <-. exists []. simpl. now rewrite app_nil_r.
    + discriminate.
  - destruct (callback_step_out ev s s' H) as (_ & _ & _ & _ & Hout & _).
    eexists. exact Hout.
Qed.

Lemma sys_run_snoc (cs : list sched) (c : sched) (s0 s s' : sys) :
  sys_run cs s0 = Some s -> sys_step c s = Some s' ->
  sys_run (cs ++ [c]) s0 = Some s'.
Proof.
  revert s0. induction cs as [| c0 cs IH]; intros s0 Hrun Hstep; simpl in *.
  - injection Hrun as ->. now rewrite Hstep.
  - destruct (sys_step c0 s0) as [s1 |]; [| discriminate]. now apply IH.
Qed.

Lemma get_after_subscriptions_app (out new : list effect) :
  get_after_subscriptions out ->
  (existsb is_publish_get new = true ->
   all_subscriptions_completed out = true) ->
  get_after_subscriptions (out ++ new).
Proof.
  intros Hout Hnew pre rest H.
  apply app_eq_app in H as [l [[H1 H2] | [H1 H2]]].
  - destruct l as [| e l].
    + rewrite app_nil_r in H1. subst pre. apply Hnew.
      simpl in H2. subst new. reflexivity.
    + injection H2 as <- H2. exact (Hout pre l H1).
  - subst pre. apply all_completed_mono, Hnew.
    rewrite H2, existsb_app. simpl. apply orb_true_r.
Qed.

Lemma sys_run_get_after_subscriptions
  (thing prop : string) (cs : list sched) (cs0 : list sched) (s0 s : sys) :
  sys_run cs0 (sys_init thing prop) = Some s0 ->
  get_after_subscriptions (sys_out s0) ->
  sys_run cs s0 = Some s ->
  get_after_subscriptions (sys_out s).
Proof.
  revert cs0 s0. induction cs as [| c cs IH]; intros cs0 s0 Hreach H0 Hrun.
  - injection Hrun as <-. exact H0.
  - simpl in Hrun. destruct (sys_step c s0) as [s1 |] eqn:Hstep; [| discriminate].
    destruct (sys_step_out c s0 s1 Hstep) as [new Hnew].
    apply (IH (cs0 ++ [c]) s1); [| | exact Hrun].
    + eapply sys_run_snoc; eassumption.
    + rewrite Hnew. apply get_after_subscriptions_app; [exact H0 |].
      exact (proj1 (publishes_wait_for_subscriptions thing prop cs0 c s0 s1
                      new Hreach Hstep Hnew)).
Qed.

(** X15. In the order of actions of every execution from line 267 on,
    whatever callbacks and input turns come in between, the get request is
    published only after the main thread has seen all five subscriptions
    (delta, update accepted and rejected, get accepted and rejected)
    complete. *)
Theorem get_request_after_all_subscriptions
  (cs : list sched) (thing prop : string) (s : sys)
  (pre rest : list effect) :
  sys_run cs (sys_init thing prop) = Some s ->
  sys_out s = pre ++ EPublishGet :: rest ->
  all_subscriptions_completed pre = true.
Proof.
  intros Hrun Hsplit.
  refine (sys_run_get_after_subscriptions thing prop cs [] _ s
            eq_refl _ Hrun pre rest Hsplit).
  intros pre' rest' H. destruct pre'; discriminate H.
Qed.

Lemma get_request_after_all_subscriptions_witness :
  exists s pre rest,
    sys_run startup_alone (sys_init "lamp" "color") = Some s
    /\ sys_out s = pre ++ EPublishGet :: rest
    /\ all_subscriptions_completed pre = true.
Proof.
  assert (H : exists s pre rest,
             sys_run startup_alone (sys_init "lamp" "color") = Some s
             /\ sys_out s = pre ++ EPublishGet :: rest).
  { eexists.
    exists [ EPrint LSubscribingDelta; ESubscribe TDelta;
             EAwaited (FSubscribed TDelta);
             EPrint LSubscribingUpdate;
             ESubscribe TUpdateAccepted; ESubscribe TUpdateRejected;
             EAwaited (FSubscribed TUpdateAccepted);
             EAwaited (FSubscribed TUpdateRejected);
             EPrint LSubscribingGet;
             ESubscribe TGetAccepted; ESubscribe TGetRejected;
             EAwaited (FSubscribed TGetAccepted);
             EAwaited (FSubscribed TGetRejected);
             EPrint LRequestingState ].
    eexists. split; vm_compute; reflexivity. }
  destruct H as (s & pre & rest & Hs & Hsplit).
  exists s, pre, rest. repeat split; try assumption.
  exact (get_request_after_all_subscriptions startup_alone "lamp" "color"
           s pre rest Hs Hsplit).
Defined.
